(** * babel-highlight-kleur: token classification and rendering

    A shallow embedding of [src/index.ts].  The module colours a snippet of
    JavaScript: the text is cut into tokens by [js-tokens], every token gets
    an internal type ([getTokenType], [tokenize]) and the text of every typed
    token is passed through a [kleur] style, line by line
    ([highlightTokens], [highlight]).

    The collaborators that live outside the repository ([js-tokens], the two
    predicates of [@babel/helper-validator-identifier], [kleur] and the
    built-in [String.prototype.toLowerCase]) are parameters of the
    development. *)

From Stdlib Require Import NArith ZArith Bool String Ascii Lia List.
Import ListNotations.

(** ** JavaScript strings

    A JavaScript string is a sequence of UTF-16 code units; indexing,
    [slice] and the regular expressions of the module all work on code
    units. *)

Definition codeunit := N.
Definition jsstring := list codeunit.

(** A literal of the source, written with ASCII characters only. *)
Definition js (s : string) : jsstring :=
  map N_of_ascii (list_ascii_of_string s).
Arguments js s%_string.

Fixpoint str_eqb (a b : jsstring) : bool :=
  match a, b with
  | [], [] => true
  | x :: a', y :: b' => (x =? y)%N && str_eqb a' b'
  | _, _ => false
  end.

(** [String.prototype.slice(start, end)]: a negative index counts from the
    end, both indices are clamped to the string, and the result is empty
    when the range is. *)
Definition clampIndex (len i : Z) : Z :=
  if (i <? 0)%Z then Z.max (len + i) 0 else Z.min i len.

Definition slice (s : jsstring) (start : Z) (end_ : option Z) : jsstring :=
  let len := Z.of_nat (length s) in
  let from := clampIndex len start in
  let to := match end_ with
            | Some e => clampIndex len e
            | None => len
            end in
  firstn (Z.to_nat (to - from)) (skipn (Z.to_nat from) s).

(** [Array.prototype.join(sep)] on an array of strings. *)
Fixpoint join (sep : jsstring) (parts : list jsstring) : jsstring :=
  match parts with
  | [] => []
  | [p] => p
  | p :: rest => p ++ sep ++ join sep rest
  end.

(** ** The two regular expressions *)

Definition LF : codeunit := 10%N.
Definition CR : codeunit := 13%N.
Definition LS : codeunit := 0x2028%N.
Definition PS : codeunit := 0x2029%N.

(** The character class [[\n\r\u2028\u2029]]. *)
Definition isLineBreak (c : codeunit) : bool :=
  ((c =? LF) || (c =? CR) || (c =? LS) || (c =? PS))%N.

(** [value.split(NEWLINE)] with [NEWLINE = /\r\n|[\n\r\u2028\u2029]/]: the
    text is cut at every match, a carriage return followed by a line feed
    being one match; the pieces between the matches are returned, empty
    ones included. *)
Fixpoint split_NEWLINE (s : jsstring) : list jsstring :=
  match s with
  | [] => [[]]
  | c :: rest =>
      if (c =? CR)%N then
        match rest with
        | d :: rest' =>
            if (d =? LF)%N then [] :: split_NEWLINE rest'
            else [] :: split_NEWLINE rest
        | [] => [] :: split_NEWLINE rest
        end
      else if isLineBreak c then [] :: split_NEWLINE rest
      else
        match split_NEWLINE rest with
        | seg :: segs => (c :: seg) :: segs
        | [] => [[c]]
        end
  end.

(** The text holds a match of [NEWLINE] somewhere. *)
Definition NEWLINE_test (s : jsstring) : bool := existsb isLineBreak s.

(** [BRACKET.test(s)] with [BRACKET = /^[()[\]{}]$/]: the text is one single
    character, and that character is a bracket. *)
Definition isBracket (c : codeunit) : bool :=
  ((c =? 40) || (c =? 41) || (c =? 91) || (c =? 93) || (c =? 123)
   || (c =? 125))%N.

Definition BRACKET_test (s : jsstring) : bool :=
  match s with
  | [c] => isBracket c
  | _ => false
  end.

(** ** Tokens *)

(** The token types of [js-tokens] (option [jsx: true]). *)
Inductive JSTokenType : Type :=
  | StringLiteral | NoSubstitutionTemplate
  | TemplateHead | TemplateMiddle | TemplateTail
  | RegularExpressionLiteral
  | MultiLineComment | SingleLineComment | HashbangComment
  | IdentifierName | PrivateIdentifier
  | NumericLiteral | Punctuator
  | WhiteSpace | LineTerminatorSequence | Invalid
  | JSXString | JSXText | JSXIdentifier | JSXPunctuator | JSXInvalid.

Record JSToken : Type := mkJSToken {
  raw_type : JSTokenType;
  raw_value : jsstring
}.

Inductive InternalTokenType : Type :=
  | keyword | capitalized | jsxIdentifier | punctuator | number
  | string_ | regex | comment | invalid.

(** The [type] field of a [Token]: [InternalTokenType | "uncolored"]. *)
Inductive TokenType : Type :=
  | Internal (t : InternalTokenType)
  | uncolored.
Coercion Internal : InternalTokenType >-> TokenType.

Record Token : Type := mkToken {
  type : TokenType;
  value : jsstring
}.

(** ** Failure and the global flag

    [kleur.enabled] is the only state of the module.  A computation starts
    from a value of the flag and ends with a returned value or a thrown
    exception, and a value of the flag. *)

Inductive exn : Type := TypeError.

Inductive result (A : Type) : Type :=
  | Ok (a : A)
  | Throw (e : exn).
Arguments Ok {A} a.
Arguments Throw {A} e.

Definition M (A : Type) : Type := bool -> result A * bool.

Definition ret {A} (a : A) : M A := fun enabled => (Ok a, enabled).

Definition throw {A} (e : exn) : M A := fun enabled => (Throw e, enabled).

Definition bind {A B} (m : M A) (k : A -> M B) : M B :=
  fun enabled =>
    match m enabled with
    | (Ok a, enabled') => k a enabled'
    | (Throw e, enabled') => (Throw e, enabled')
    end.

Notation "x <- m ;; k" := (bind m (fun x => k))
  (at level 61, m at next level, right associativity).
Notation "m ;;; k" := (bind m (fun _ => k))
  (at level 61, right associativity).

(** Reading and writing [kleur.enabled]. *)
Definition get_enabled : M bool := fun enabled => (Ok enabled, enabled).
Definition set_enabled (b : bool) : M unit := fun _ => (Ok tt, b).

(** [try { body } finally { fin }]: the finaliser runs on both exits of the
    body, and the outcome of the body stands unless the finaliser throws. *)
Definition try_finally {A} (body : M A) (fin : M unit) : M A :=
  fun enabled =>
    let (outcome, enabled1) := body enabled in
    match fin enabled1 with
    | (Ok _, enabled2) => (outcome, enabled2)
    | (Throw e, enabled2) => (Throw e, enabled2)
    end.

(** [array.map(f)] for an [f] that is a computation. *)
Fixpoint mapM {A B} (f : A -> M B) (l : list A) : M (list B) :=
  match l with
  | [] => ret []
  | x :: rest =>
      y <- f x ;;
      ys <- mapM f rest ;;
      ret (y :: ys)
  end.

(** ** Generators

    A run of a generator: the values it yields, in order, until it returns
    or throws. *)
Inductive Generator (A : Type) : Type :=
  | Done
  | Yield (a : A) (rest : Generator A)
  | Raise (e : exn).
Arguments Done {A}.
Arguments Yield {A} a rest.
Arguments Raise {A} e.

(** The values yielded before the generator stops. *)
Fixpoint yielded {A} (g : Generator A) : list A :=
  match g with
  | Done => []
  | Yield a rest => a :: yielded rest
  | Raise _ => []
  end.

(** The generator runs to its end without throwing. *)
Fixpoint completes {A} (g : Generator A) : bool :=
  match g with
  | Done => true
  | Yield _ rest => completes rest
  | Raise _ => false
  end.

(** ** kleur *)

(** The six styles [getDefs] takes from [kleur]. *)
Inductive kleur_style : Type :=
  | cyan | yellow | magenta | green | grey | white_bgRed_bold.

(** The options of [highlight]. *)
Record Options : Type := mkOptions {
  forceColor : option bool
}.

(** The default value of the parameter, [{}]. *)
Definition no_options : Options := {| forceColor := None |}.

(** Truthiness of an optional boolean field. *)
Definition truthy (b : option bool) : bool :=
  match b with
  | Some true => true
  | _ => false
  end.

(** A call [colorize(str)] of one of the styles: [kleur.enabled] is read
    when the style is called. *)
Definition kleur_call (run : kleur_style -> bool -> jsstring -> jsstring)
    (k : kleur_style) (str : jsstring) : M jsstring :=
  enabled <- get_enabled ;;
  ret (run k enabled str).

(** ** Sample collaborators

    Concrete collaborators, to run the model on examples: the word lists of
    [@babel/helper-validator-identifier], lower-casing of the ASCII letters,
    the escape codes [kleur] wraps a text in, and the tokens [js-tokens]
    cuts a few sample texts into. *)

Module Sample.

Definition keywords : list jsstring :=
  map js
    ["break"; "case"; "catch"; "continue"; "debugger"; "default"; "do";
     "else"; "finally"; "for"; "function"; "if"; "return"; "switch";
     "throw"; "try"; "var"; "const"; "while"; "with"; "new"; "this";
     "super"; "class"; "extends"; "export"; "import"; "null"; "true";
     "false"; "in"; "instanceof"; "typeof"; "void"; "delete"]%string.

Definition reservedWordsStrict : list jsstring :=
  map js
    ["implements"; "interface"; "let"; "package"; "private"; "protected";
     "public"; "static"; "yield"]%string.

Definition isKeyword (word : jsstring) : bool :=
  existsb (str_eqb word) keywords.

Definition isReservedWord (word : jsstring) (inModule : bool) : bool :=
  (inModule && str_eqb word (js "await")) || str_eqb word (js "enum").

Definition isStrictReservedWord (word : jsstring) (inModule : bool) : bool :=
  isReservedWord word inModule || existsb (str_eqb word) reservedWordsStrict.

(** Lower-casing, right on the ASCII range. *)
Definition toLowerCase (s : jsstring) : jsstring :=
  map (fun c => if ((65 <=? c) && (c <=? 90))%N then (c + 32)%N else c) s.

Definition ESC : codeunit := 27%N.

Definition open (k : kleur_style) : jsstring :=
  match k with
  | cyan => ESC :: js "[36m"
  | yellow => ESC :: js "[33m"
  | magenta => ESC :: js "[35m"
  | green => ESC :: js "[32m"
  | grey => ESC :: js "[90m"
  | white_bgRed_bold =>
      (ESC :: js "[37m") ++ (ESC :: js "[41m") ++ (ESC :: js "[1m")
  end.

Definition close (k : kleur_style) : jsstring :=
  match k with
  | white_bgRed_bold =>
      (ESC :: js "[39m") ++ (ESC :: js "[49m") ++ (ESC :: js "[22m")
  | _ => ESC :: js "[39m"
  end.

(** A style applied to a text that holds no escape code of its own. *)
Definition kleur_apply (k : kleur_style) (enabled : bool) (str : jsstring)
    : jsstring :=
  if enabled then open k ++ str ++ close k else str.

(** A text without the escape codes above: every [ESC] is dropped with
    what follows it, up to the [m] that ends the code. *)
Fixpoint strip_codes (in_code : bool) (s : jsstring) : jsstring :=
  match s with
  | [] => []
  | c :: rest =>
      if in_code then strip_codes (negb (c =? 109)%N) rest
      else if (c =? ESC)%N then strip_codes true rest
      else c :: strip_codes false rest
  end.

Definition const_x : jsstring := js "const x = 1;".
Definition template : jsstring := js "`a${b}c`".
Definition comment_crlf : jsstring := js "/*a" ++ [CR; LF] ++ js "b*/".
Definition comment_lf : jsstring := js "/* a" ++ [LF] ++ js "b */".

(** The tokens of the sample texts; any other text is cut into one
    [Invalid] token per code unit. *)
Definition jsTokens (text : jsstring) : list JSToken :=
  if str_eqb text const_x then
    [mkJSToken IdentifierName (js "const"); mkJSToken WhiteSpace (js " ");
     mkJSToken IdentifierName (js "x"); mkJSToken WhiteSpace (js " ");
     mkJSToken Punctuator (js "="); mkJSToken WhiteSpace (js " ");
     mkJSToken NumericLiteral (js "1"); mkJSToken Punctuator (js ";")]
  else if str_eqb text template then
    [mkJSToken TemplateHead (js "`a${"); mkJSToken IdentifierName (js "b");
     mkJSToken TemplateTail (js "}c`")]
  else if str_eqb text comment_crlf then
    [mkJSToken MultiLineComment comment_crlf]
  else if str_eqb text comment_lf then
    [mkJSToken MultiLineComment comment_lf]
  else map (fun c => mkJSToken Invalid [c]) text.

End Sample.

(** ** The module *)

(** [sometimesKeywords], a [Set] of six words, and [Set.prototype.has]. *)
Definition sometimesKeywords : list jsstring :=
  map js ["as"; "async"; "from"; "get"; "of"; "set"]%string.

Definition has (set : list jsstring) (v : jsstring) : bool :=
  existsb (str_eqb v) set.

(** [getDefs()]: the style of each internal token type. *)
Definition getDefs (t : InternalTokenType) : kleur_style :=
  match t with
  | keyword => cyan
  | capitalized => yellow
  | jsxIdentifier => yellow
  | punctuator => yellow
  | number => magenta
  | string_ => green
  | regex => magenta
  | comment => grey
  | invalid => white_bgRed_bold
  end.

(** [defs[type]]: a record over the internal token types has no entry for
    ["uncolored"]. *)
Definition lookup {V} (defs : InternalTokenType -> V) (ty : TokenType)
    : option V :=
  match ty with
  | Internal t => Some (defs t)
  | uncolored => None
  end.

Definition JSTokenType_eq_dec (a b : JSTokenType) : {a = b} + {a <> b}.
Proof. decide equality. Defined.

(** [token.type === t]. *)
Definition type_is (token : JSToken) (t : JSTokenType) : bool :=
  if JSTokenType_eq_dec (raw_type token) t then true else false.

(** [getTokenType] from its second [if] on: the two overrides and the
    [switch] on the type of the token. *)
Definition getTokenType_rest (token : JSToken) : TokenType :=
  if type_is token Punctuator && BRACKET_test (raw_value token) then
    uncolored
  else if type_is token Invalid && str_eqb (raw_value token) (js "@") then
    punctuator
  else
    match raw_type token with
    | NumericLiteral => number
    | StringLiteral | JSXString | NoSubstitutionTemplate => string_
    | RegularExpressionLiteral => regex
    | Punctuator | JSXPunctuator => punctuator
    | MultiLineComment | SingleLineComment => comment
    | Invalid | JSXInvalid => invalid
    | JSXIdentifier => jsxIdentifier
    | _ => uncolored
    end.

Section Highlight.

#[local] Set Default Proof Using "Type".

(** [jsTokens(text, { jsx: true })], [isKeyword(word)],
    [isStrictReservedWord(word, inModule)], [str.toLowerCase()], and the
    text a [kleur] style returns for a value of [kleur.enabled]. *)
Variable jsTokens : jsstring -> list JSToken.
Variable isKeyword : jsstring -> bool.
Variable isStrictReservedWord : jsstring -> bool -> bool.
Variable toLowerCase : jsstring -> jsstring.
Variable kleur_apply : kleur_style -> bool -> jsstring -> jsstring.

(** For the statements that are about texts only. *)
Ltac no_collaborators :=
  clear jsTokens isKeyword isStrictReservedWord toLowerCase kleur_apply.

(** The condition of the first [return "keyword"]. *)
Definition keywordLike (v : jsstring) : bool :=
  isKeyword v || isStrictReservedWord v true || has sometimesKeywords v.

(** [token.value[0]] is [undefined] on the empty text, and calling
    [toLowerCase] on it throws a [TypeError]. *)
Definition getTokenType (token : JSToken) : result TokenType :=
  if type_is token IdentifierName then
    if keywordLike (raw_value token) then Ok (Internal keyword)
    else
      match raw_value token with
      | [] => Throw TypeError
      | c :: _ =>
          if negb (str_eqb [c] (toLowerCase [c])) then
            Ok (Internal capitalized)
          else Ok (getTokenType_rest token)
      end
  else Ok (getTokenType_rest token).

(** The body of [tokenize], over the tokens [jsTokens] hands out. *)
Fixpoint tokenize_tokens (tokens : list JSToken) : Generator Token :=
  match tokens with
  | [] => Done
  | token :: rest =>
      match raw_type token with
      | TemplateHead =>
          Yield (mkToken string_ (slice (raw_value token) 0 (Some (-2)%Z)))
            (Yield (mkToken punctuator (js "${"))
               (tokenize_tokens rest))
      | TemplateMiddle =>
          Yield (mkToken punctuator (js "}"))
            (Yield (mkToken string_
                      (slice (raw_value token) 1 (Some (-2)%Z)))
               (Yield (mkToken punctuator (js "${"))
                  (tokenize_tokens rest)))
      | TemplateTail =>
          Yield (mkToken punctuator (js "}"))
            (Yield (mkToken string_ (slice (raw_value token) 1 None))
               (tokenize_tokens rest))
      | _ =>
          match getTokenType token with
          | Ok ty => Yield (mkToken ty (raw_value token))
                       (tokenize_tokens rest)
          | Throw e => Raise e
          end
      end
  end.

Definition tokenize (text : jsstring) : Generator Token :=
  tokenize_tokens (jsTokens text).

(** The loop of [highlightTokens], with [highlighted] as accumulator. *)
Fixpoint highlightTokens_loop (defs : InternalTokenType -> kleur_style)
    (tokens : Generator Token) (highlighted : jsstring) : M jsstring :=
  match tokens with
  | Done => ret highlighted
  | Raise e => throw e
  | Yield token rest =>
      match lookup defs (type token) with
      | Some colorize =>
          parts <- mapM (kleur_call kleur_apply colorize)
                     (split_NEWLINE (value token)) ;;
          highlightTokens_loop defs rest
            (highlighted ++ join [LF] parts)
      | None =>
          highlightTokens_loop defs rest (highlighted ++ value token)
      end
  end.

Definition highlightTokens (defs : InternalTokenType -> kleur_style)
    (text : jsstring) : M jsstring :=
  highlightTokens_loop defs (tokenize text) [].

Definition highlight (code : jsstring) (options : Options) : M jsstring :=
  if str_eqb code [] then ret code
  else if truthy (forceColor options) then
    kleurEnabledBefore <- get_enabled ;;
    set_enabled true ;;;
    result <- try_finally (highlightTokens getDefs code)
                (set_enabled kleurEnabledBefore) ;;
    ret result
  else
    enabled <- get_enabled ;;
    if enabled then highlightTokens getDefs code else ret code.

(** ** The rendered text, span by span

    The text [highlightTokens] builds is a sequence of spans: a text that
    went through a style, or a text appended as it is.  Stripping what the
    styles inserted leaves the text each span was made from. *)

Inductive fragment : Type :=
  | Plain (s : jsstring)
  | Styled (k : kleur_style) (s : jsstring).

Definition render (enabled : bool) (f : fragment) : jsstring :=
  match f with
  | Plain s => s
  | Styled k s => kleur_apply k enabled s
  end.

Definition strip (f : fragment) : jsstring :=
  match f with
  | Plain s => s
  | Styled _ s => s
  end.

Definition render_all (enabled : bool) (fs : list fragment) : jsstring :=
  concat (map (render enabled) fs).

Definition strip_all (fs : list fragment) : jsstring :=
  concat (map strip fs).

(** The spans of one styled token: its lines, one line feed between two. *)
Fixpoint styled_lines (k : kleur_style) (lines : list jsstring)
    : list fragment :=
  match lines with
  | [] => []
  | [l] => [Styled k l]
  | l :: rest => Styled k l :: Plain [LF] :: styled_lines k rest
  end.

Definition token_fragments (defs : InternalTokenType -> kleur_style)
    (token : Token) : list fragment :=
  match lookup defs (type token) with
  | Some colorize => styled_lines colorize (split_NEWLINE (value token))
  | None => [Plain (value token)]
  end.

Fixpoint fragments (defs : InternalTokenType -> kleur_style)
    (tokens : Generator Token) : result (list fragment) :=
  match tokens with
  | Done => Ok []
  | Raise e => Throw e
  | Yield token rest =>
      match fragments defs rest with
      | Ok fs => Ok (token_fragments defs token ++ fs)
      | Throw e => Throw e
      end
  end.

(** ** Vocabulary of the properties *)

Definition ends_with (s suffix : jsstring) : Prop :=
  exists p, s = p ++ suffix.

Definition starts_with (s prefix : jsstring) : Prop :=
  exists q, s = prefix ++ q.

(** The delimiters [js-tokens] leaves in the text of the three kinds of
    template tokens. *)
Definition template_shape (token : JSToken) : Prop :=
  match raw_type token with
  | TemplateHead => ends_with (raw_value token) (js "${")
  | TemplateMiddle =>
      starts_with (raw_value token) (js "}")
      /\ ends_with (raw_value token) (js "${")
  | TemplateTail => starts_with (raw_value token) (js "}")
  | _ => True
  end.

(** An [IdentifierName] token has at least one character. *)
Definition identifier_nonempty (token : JSToken) : Prop :=
  raw_type token = IdentifierName -> raw_value token <> [].

(** The token is none of the three template kinds [tokenize] splits. *)
Definition other_kind (token : JSToken) : Prop :=
  raw_type token <> TemplateHead
  /\ raw_type token <> TemplateMiddle
  /\ raw_type token <> TemplateTail.

(** What the tokens yielded for one raw token spell, one kind at a time. *)
Definition reassembles (token : JSToken) : Prop :=
  match raw_type token with
  | TemplateHead =>
      slice (raw_value token) 0 (Some (-2)%Z) ++ js "${" = raw_value token
  | TemplateMiddle =>
      js "}" ++ slice (raw_value token) 1 (Some (-2)%Z) ++ js "${"
      = raw_value token
  | TemplateTail =>
      js "}" ++ slice (raw_value token) 1 None = raw_value token
  | _ => True
  end.

(** A text without its last [n] characters, and without its first one. *)
Definition without_trailing (n : nat) (t : jsstring) : jsstring :=
  firstn (length t - n) t.

Definition without_first (t : jsstring) : jsstring := tl t.

(** The five matches of [NEWLINE]. *)
Definition is_boundary (b : jsstring) : Prop :=
  b = [CR; LF] \/ b = [LF] \/ b = [CR] \/ b = [LS] \/ b = [PS].

(** The text holds no line break but line feeds. *)
Definition only_LF_breaks (s : jsstring) : bool :=
  forallb (fun c => negb ((c =? CR) || (c =? LS) || (c =? PS))%N) s.

(** The text with its line breaks taken out. *)
Definition without_breaks (s : jsstring) : jsstring :=
  filter (fun c => negb (isLineBreak c)) s.

(** The text with every match of [NEWLINE] replaced by one line feed. *)
Fixpoint normalize_breaks (s : jsstring) : jsstring :=
  match s with
  | [] => []
  | c :: rest =>
      if (c =? CR)%N then
        match rest with
        | d :: rest' =>
            if (d =? LF)%N then LF :: normalize_breaks rest'
            else LF :: normalize_breaks rest
        | [] => [LF]
        end
      else if isLineBreak c then LF :: normalize_breaks rest
      else c :: normalize_breaks rest
  end.

(** What is left of a token once the styling is stripped from its part of
    the rendered text. *)
Definition stripped_token (defs : InternalTokenType -> kleur_style)
    (token : Token) : jsstring :=
  match lookup defs (type token) with
  | Some _ => normalize_breaks (value token)
  | None => value token
  end.

(** What [highlightTokens] appends to [highlighted] for one token. *)
Definition render_token (defs : InternalTokenType -> kleur_style)
    (enabled : bool) (token : Token) : jsstring :=
  match lookup defs (type token) with
  | Some colorize =>
      join [LF] (map (kleur_apply colorize enabled)
                   (split_NEWLINE (value token)))
  | None => value token
  end.

(** What one turn of the loop of [tokenize] yields, or the exception it
    throws. *)
Definition token_yields (token : JSToken) : result (list Token) :=
  match raw_type token with
  | TemplateHead =>
      Ok [mkToken string_ (slice (raw_value token) 0 (Some (-2)%Z));
          mkToken punctuator (js "${")]
  | TemplateMiddle =>
      Ok [mkToken punctuator (js "}");
          mkToken string_ (slice (raw_value token) 1 (Some (-2)%Z));
          mkToken punctuator (js "${")]
  | TemplateTail =>
      Ok [mkToken punctuator (js "}");
          mkToken string_ (slice (raw_value token) 1 None)]
  | _ =>
      match getTokenType token with
      | Ok ty => Ok [mkToken ty (raw_value token)]
      | Throw e => Throw e
      end
  end.

(** A generator that yields [ys] and goes on as [g]. *)
Definition yield_all {A} (ys : list A) (g : Generator A) : Generator A :=
  fold_right Yield g ys.

(** The tokens [getTokenType] throws on. *)
Definition classifier_fails (token : JSToken) : Prop :=
  raw_type token = IdentifierName
  /\ raw_value token = []
  /\ keywordLike [] = false.

(** The kinds no [if] of [getTokenType] tests and its [switch] has no case
    for. *)
Definition unstyled_kind (t : JSTokenType) : bool :=
  match t with
  | WhiteSpace | LineTerminatorSequence | JSXText | PrivateIdentifier
  | HashbangComment => true
  | _ => false
  end.

(** The kinds for which [getTokenType] reads the text of the token. *)
Definition text_dependent (t : JSTokenType) : bool :=
  match t with
  | IdentifierName | Punctuator | Invalid => true
  | _ => false
  end.

(** The tokens yielded for one raw token, in the words of the
    specification: the text of a template token is cut into its string
    part and the punctuators ["${"] and ["}"] that delimit it; any other
    token gives one token, of the type the classifier returns and with the
    text unchanged. *)
Definition resegments (token : JSToken) (group : list Token) : Prop :=
  match raw_type token with
  | TemplateHead =>
      exists p,
        raw_value token = p ++ js "${"
        /\ group = [mkToken string_ p; mkToken punctuator (js "${")]
  | TemplateMiddle =>
      exists p,
        raw_value token = js "}" ++ p ++ js "${"
        /\ group = [mkToken punctuator (js "}"); mkToken string_ p;
                    mkToken punctuator (js "${")]
  | TemplateTail =>
      exists p,
        raw_value token = js "}" ++ p
        /\ group = [mkToken punctuator (js "}"); mkToken string_ p]
  | _ =>
      exists ty,
        getTokenType token = Ok ty
        /\ group = [mkToken ty (raw_value token)]
  end.

(** A text cut into its lines, in the words of the specification: a line
    holds no line break, and two lines are separated by one boundary, a
    carriage return with the line feed that follows it, or a lone line
    feed, carriage return, line separator or paragraph separator (a
    carriage return is lone when no line feed follows it). *)
Inductive cut_at_breaks : jsstring -> list jsstring -> Prop :=
  | cut_last (line : jsstring) :
      NEWLINE_test line = false ->
      cut_at_breaks line [line]
  | cut_line (line b rest : jsstring) (lines : list jsstring) :
      NEWLINE_test line = false ->
      is_boundary b ->
      (b = [CR] -> forall r, rest <> LF :: r) ->
      cut_at_breaks rest lines ->
      cut_at_breaks (line ++ b ++ rest) (line :: lines).

(** ** Strings *)

Lemma str_eqb_spec (a b : jsstring) : str_eqb a b = true <-> a = b.
Proof.
  revert b; induction a as [|x a IH]; intros [|y b]; simpl;
    try (split; [discriminate | discriminate]); try tauto.
  rewrite andb_true_iff, N.eqb_eq, IH.
  split; [intros [-> ->]; reflexivity | intros H; inversion H; auto].
Qed.

Lemma str_eqb_refl (a : jsstring) : str_eqb a a = true.
Proof. apply str_eqb_spec; reflexivity. Qed.

Lemma str_eqb_neq (a b : jsstring) : str_eqb a b = false <-> a <> b.
Proof.
  rewrite <- str_eqb_spec. destruct (str_eqb a b); split; congruence.
Qed.

Lemma has_spec (set : list jsstring) (v : jsstring) :
  has set v = true <-> In v set.
Proof.
  unfold has. rewrite existsb_exists. split.
  - intros (x & Hin & Heq). apply str_eqb_spec in Heq. now subst.
  - intros Hin. exists v. split; [assumption | apply str_eqb_refl].
Qed.

Lemma slice_without_trailing (t : jsstring) :
  slice t 0 (Some (-2)%Z) = without_trailing 2 t.
Proof.
  unfold slice, without_trailing, clampIndex. simpl.
  rewrite Z.min_l by lia. simpl. f_equal. lia.
Qed.

Lemma slice_without_first (t : jsstring) :
  slice t 1 None = without_first t.
Proof.
  unfold slice, without_first, clampIndex. simpl.
  destruct t as [|c t]; [reflexivity|].
  rewrite Z.min_l by (simpl length; lia).
  change (Z.to_nat 1) with 1%nat. simpl skipn.
  apply firstn_all2. simpl length. lia.
Qed.

Lemma slice_without_first_trailing (t : jsstring) :
  slice t 1 (Some (-2)%Z) = without_trailing 2 (without_first t).
Proof.
  unfold slice, without_trailing, without_first, clampIndex. simpl.
  destruct t as [|c t]; [reflexivity|].
  rewrite Z.min_l by (simpl length; lia).
  change (Z.to_nat 1) with 1%nat. simpl skipn. simpl tl.
  f_equal. simpl length. lia.
Qed.

Lemma without_trailing_app (p suffix : jsstring) :
  without_trailing (length suffix) (p ++ suffix) = p.
Proof.
  unfold without_trailing. rewrite length_app.
  replace (length p + length suffix - length suffix)%nat with (length p)
    by lia.
  rewrite firstn_app, firstn_all, Nat.sub_diag. simpl. apply app_nil_r.
Qed.

Lemma without_trailing_delimiter (p : jsstring) :
  without_trailing 2 (p ++ js "${") = p.
Proof. exact (without_trailing_app p (js "${")). Qed.

(** ** The classifier *)

Lemma type_is_true (token : JSToken) (t : JSTokenType) :
  type_is token t = true <-> raw_type token = t.
Proof.
  unfold type_is. destruct (JSTokenType_eq_dec (raw_type token) t);
    split; congruence.
Qed.

Lemma type_is_false (token : JSToken) (t : JSTokenType) :
  type_is token t = false <-> raw_type token <> t.
Proof.
  unfold type_is. destruct (JSTokenType_eq_dec (raw_type token) t);
    split; congruence.
Qed.

Lemma getTokenType_rest_identifier (token : JSToken) :
  raw_type token = IdentifierName -> getTokenType_rest token = uncolored.
Proof.
  intros H. unfold getTokenType_rest.
  replace (type_is token Punctuator) with false
    by (symmetry; apply type_is_false; congruence).
  replace (type_is token Invalid) with false
    by (symmetry; apply type_is_false; congruence).
  simpl. now rewrite H.
Qed.

Lemma getTokenType_not_identifier (token : JSToken) :
  raw_type token <> IdentifierName ->
  getTokenType token = Ok (getTokenType_rest token).
Proof.
  intros H. unfold getTokenType.
  now replace (type_is token IdentifierName) with false
    by (symmetry; apply type_is_false; assumption).
Qed.

Lemma getTokenType_identifier (token : JSToken) :
  raw_type token = IdentifierName ->
  getTokenType token =
    if keywordLike (raw_value token) then Ok (Internal keyword)
    else match raw_value token with
         | [] => Throw TypeError
         | c :: _ =>
             if negb (str_eqb [c] (toLowerCase [c])) then
               Ok (Internal capitalized)
             else Ok uncolored
         end.
Proof.
  intros H. unfold getTokenType.
  replace (type_is token IdentifierName) with true
    by (symmetry; apply type_is_true; assumption).
  now rewrite (getTokenType_rest_identifier token H).
Qed.

Lemma keywordLike_spec (v : jsstring) :
  keywordLike v = true <->
  isKeyword v = true \/ isStrictReservedWord v true = true
  \/ In v [js "as"; js "async"; js "from"; js "get"; js "of"; js "set"].
Proof.
  unfold keywordLike. rewrite !orb_true_iff, has_spec.
  unfold sometimesKeywords. simpl map.
  split; [intros [[H | H] | H] | intros [H | [H | H]]]; auto.
Qed.

(** The classifier fails on one kind of token only: an [IdentifierName]
    with an empty text. *)
Lemma getTokenType_returns (token : JSToken) :
  identifier_nonempty token -> exists ty, getTokenType token = Ok ty.
Proof.
  intros Hne. destruct (JSTokenType_eq_dec (raw_type token) IdentifierName)
    as [Hid | Hid].
  - rewrite (getTokenType_identifier token Hid).
    destruct (keywordLike (raw_value token)); [eauto|].
    destruct (raw_value token) as [|c v] eqn:Hv.
    + now elim (Hne Hid).
    + destruct (negb (str_eqb [c] (toLowerCase [c]))); eauto.
  - rewrite (getTokenType_not_identifier token Hid). eauto.
Qed.

(** C4. An [IdentifierName] token is typed [keyword] exactly when its text
    is a keyword for [isKeyword], a reserved word for
    [isStrictReservedWord] called with [true], or one of [as], [async],
    [from], [get], [of], [set].  So [async] is typed [keyword], and
    [target], when neither predicate holds of it, is not. *)
Theorem C4_keyword_iff (token : JSToken) :
  raw_type token = IdentifierName ->
  (getTokenType token = Ok (Internal keyword) <->
   isKeyword (raw_value token) = true
   \/ isStrictReservedWord (raw_value token) true = true
   \/ In (raw_value token)
        [js "as"; js "async"; js "from"; js "get"; js "of"; js "set"])
  /\ (raw_value token = js "async" ->
      getTokenType token = Ok (Internal keyword))
  /\ (raw_value token = js "target" ->
      isKeyword (js "target") = false ->
      isStrictReservedWord (js "target") true = false ->
      getTokenType token <> Ok (Internal keyword)).
Proof.
  clear jsTokens kleur_apply. intros Hid.
  assert (Hiff : getTokenType token = Ok (Internal keyword) <->
                 keywordLike (raw_value token) = true).
  { rewrite (getTokenType_identifier token Hid).
    destruct (keywordLike (raw_value token)).
    - tauto.
    - split; [|discriminate].
      destruct (raw_value token) as [|c v]; [discriminate|].
      destruct (negb (str_eqb [c] (toLowerCase [c]))); discriminate. }
  split; [|split].
  - rewrite Hiff. apply keywordLike_spec.
  - intros Hv. apply Hiff, keywordLike_spec. rewrite Hv.
    right; right; simpl; tauto.
  - intros Hv Hk Hs Hty. apply Hiff, keywordLike_spec in Hty.
    rewrite Hv in Hty. destruct Hty as [Hty | [Hty | Hty]];
      [congruence | congruence |].
    simpl in Hty. repeat (destruct Hty as [Hty | Hty]; [discriminate|]).
    exact Hty.
Qed.

(** C5. A non-empty [IdentifierName] token that is not typed [keyword] is
    typed [capitalized] when its first character differs from the
    lower-case conversion of that character, and [uncolored] otherwise. *)
Theorem C5_capitalized_or_uncolored (token : JSToken) (c : codeunit)
    (v : jsstring) :
  raw_type token = IdentifierName ->
  raw_value token = c :: v ->
  getTokenType token <> Ok (Internal keyword) ->
  ([c] <> toLowerCase [c] -> getTokenType token = Ok (Internal capitalized))
  /\ ([c] = toLowerCase [c] -> getTokenType token = Ok uncolored).
Proof.
  intros Hid Hv Hnk. rewrite (getTokenType_identifier token Hid) in *.
  destruct (keywordLike (raw_value token)); [congruence|].
  rewrite Hv. split; intros Hc.
  - apply str_eqb_neq in Hc. now rewrite Hc.
  - apply str_eqb_spec in Hc. now rewrite Hc.
Qed.

(** C6. A [Punctuator] token whose text is one of the six brackets is typed
    [uncolored]; every other [Punctuator] token is typed [punctuator], and
    so is every [JSXPunctuator] token, whatever its text. *)
Theorem C6_brackets_uncolored (token : JSToken) :
  (raw_type token = Punctuator ->
   In (raw_value token) [js "("; js ")"; js "["; js "]"; js "{"; js "}"] ->
   getTokenType token = Ok uncolored)
  /\ (raw_type token = Punctuator ->
      ~ In (raw_value token)
          [js "("; js ")"; js "["; js "]"; js "{"; js "}"] ->
      getTokenType token = Ok (Internal punctuator))
  /\ (raw_type token = JSXPunctuator ->
      getTokenType token = Ok (Internal punctuator)).
Proof.
  clear jsTokens kleur_apply.
  assert (Hbr : BRACKET_test (raw_value token) = true <->
                In (raw_value token)
                  [js "("; js ")"; js "["; js "]"; js "{"; js "}"]).
  { unfold BRACKET_test, isBracket. simpl In.
    destruct (raw_value token) as [|c [|d v]].
    - split; [discriminate|]. intuition discriminate.
    - rewrite !orb_true_iff, !N.eqb_eq. unfold js; simpl.
      split.
      + intros H; intuition (subst; auto).
      + intros H.
        repeat (destruct H as [H | H];
                [inversion H; subst; tauto|]).
        contradiction.
    - split; [discriminate|]. unfold js; simpl. intuition discriminate. }
  split; [|split].
  - intros Hty Hin. rewrite getTokenType_not_identifier by congruence.
    unfold getTokenType_rest.
    replace (type_is token Punctuator) with true
      by (symmetry; apply type_is_true; assumption).
    apply Hbr in Hin. now rewrite Hin.
  - intros Hty Hin. rewrite getTokenType_not_identifier by congruence.
    unfold getTokenType_rest.
    replace (type_is token Punctuator) with true
      by (symmetry; apply type_is_true; assumption).
    replace (type_is token Invalid) with false
      by (symmetry; apply type_is_false; congruence).
    destruct (BRACKET_test (raw_value token)) eqn:Hb.
    + elim Hin. now apply Hbr.
    + simpl. now rewrite Hty.
  - intros Hty. rewrite getTokenType_not_identifier by congruence.
    unfold getTokenType_rest.
    replace (type_is token Punctuator) with false
      by (symmetry; apply type_is_false; congruence).
    replace (type_is token Invalid) with false
      by (symmetry; apply type_is_false; congruence).
    simpl. now rewrite Hty.
Qed.

(** ** The normalizer *)

Lemma tokenize_tokens_other (token : JSToken) (rest : list JSToken) :
  other_kind token ->
  tokenize_tokens (token :: rest) =
    match getTokenType token with
    | Ok ty => Yield (mkToken ty (raw_value token)) (tokenize_tokens rest)
    | Throw e => Raise e
    end.
Proof.
  intros (Hh & Hm & Ht). simpl.
  destruct (raw_type token); try reflexivity; congruence.
Qed.

Lemma head_reassembles (v : jsstring) :
  ends_with v (js "${") -> slice v 0 (Some (-2)%Z) ++ js "${" = v.
Proof.
  intros [p ->]. rewrite slice_without_trailing.
  now rewrite without_trailing_delimiter.
Qed.

Lemma middle_reassembles (v : jsstring) :
  starts_with v (js "}") -> ends_with v (js "${") ->
  js "}" ++ slice v 1 (Some (-2)%Z) ++ js "${" = v.
Proof.
  intros [q Hq] [p Hp]. rewrite slice_without_first_trailing.
  destruct p as [|x p].
  - rewrite Hp in Hq. discriminate Hq.
  - assert (Hx : x = 125%N) by (rewrite Hp in Hq; now inversion Hq).
    subst x. rewrite Hp. simpl without_first.
    now rewrite without_trailing_delimiter.
Qed.

Lemma tail_reassembles (v : jsstring) :
  starts_with v (js "}") -> js "}" ++ slice v 1 None = v.
Proof.
  intros [q ->]. now rewrite slice_without_first.
Qed.

Lemma template_shape_reassembles (token : JSToken) :
  template_shape token -> reassembles token.
Proof.
  unfold template_shape, reassembles.
  destruct (raw_type token); try tauto.
  - apply head_reassembles.
  - intros [Hs He]. now apply middle_reassembles.
  - apply tail_reassembles.
Qed.

Lemma tokenize_tokens_lossless (raw : list JSToken) :
  Forall template_shape raw ->
  Forall identifier_nonempty raw ->
  completes (tokenize_tokens raw) = true
  /\ concat (map value (yielded (tokenize_tokens raw)))
     = concat (map raw_value raw).
Proof.
  induction 1 as [|token rest Hshape _ IH]; intros Hne.
  - split; reflexivity.
  - inversion Hne as [|? ? Hne1 Hne2]; subst.
    destruct (IH Hne2) as [IHc IHy].
    apply template_shape_reassembles in Hshape.
    unfold reassembles in Hshape.
    destruct (getTokenType_returns token Hne1) as [ty Hty].
    simpl tokenize_tokens. simpl map. simpl concat.
    destruct (raw_type token); rewrite ?Hty; simpl; rewrite ?IHy;
      (split; [exact IHc|]); try reflexivity.
    + rewrite <- Hshape at 2. now rewrite <- app_assoc.
    + rewrite <- Hshape at 2. simpl. now rewrite <- !app_assoc.
    + rewrite <- Hshape at 2. reflexivity.
Qed.

(** ** Splitting on line breaks *)

Lemma split_NEWLINE_nonempty (s : jsstring) : split_NEWLINE s <> [].
Proof.
  induction s as [|c rest IH]; simpl; [discriminate|].
  destruct (c =? CR)%N.
  - destruct rest as [|d rest']; [discriminate|].
    destruct (d =? LF)%N; discriminate.
  - destruct (isLineBreak c); [discriminate|].
    destruct (split_NEWLINE rest); discriminate.
Qed.

Lemma split_NEWLINE_CRLF (rest : jsstring) :
  split_NEWLINE (CR :: LF :: rest) = [] :: split_NEWLINE rest.
Proof. reflexivity. Qed.

Lemma split_NEWLINE_char (c : codeunit) (rest : jsstring) :
  isLineBreak c = false ->
  exists seg segs,
    split_NEWLINE rest = seg :: segs
    /\ split_NEWLINE (c :: rest) = (c :: seg) :: segs.
Proof.
  no_collaborators.
  intros Hc. simpl.
  assert (Hcr : (c =? CR)%N = false).
  { unfold isLineBreak in Hc. rewrite !orb_false_iff in Hc. tauto. }
  rewrite Hcr, Hc.
  destruct (split_NEWLINE rest) as [|seg segs] eqn:Hs.
  - now elim (split_NEWLINE_nonempty rest).
  - eauto.
Qed.

(** The cases of [split_NEWLINE]: the end of the text, a carriage return
    with its line feed, another line break, any other character. *)
Lemma split_NEWLINE_cases (P : jsstring -> Prop) :
  P [] ->
  (forall rest, P rest -> P (CR :: LF :: rest)) ->
  (forall c rest,
     isLineBreak c = true ->
     (c = CR -> forall r, rest <> LF :: r) ->
     split_NEWLINE (c :: rest) = [] :: split_NEWLINE rest ->
     normalize_breaks (c :: rest) = LF :: normalize_breaks rest ->
     P rest -> P (c :: rest)) ->
  (forall c rest, isLineBreak c = false -> P rest -> P (c :: rest)) ->
  forall s, P s.
Proof.
  intros Hnil Hcrlf Hbreak Hchar s.
  assert (H : forall n s, length s <= n -> P s).
  { clear s. induction n as [|n IH]; intros s Hlen.
    - destruct s; [exact Hnil | simpl in Hlen; lia].
    - destruct s as [|c rest]; [exact Hnil|].
      simpl in Hlen.
      destruct (isLineBreak c) eqn:Hc.
      + destruct (c =? CR)%N eqn:Hcr.
        * apply N.eqb_eq in Hcr. subst c.
          destruct rest as [|d rest'].
          -- apply Hbreak; try reflexivity.
             ++ intros _ r. discriminate.
             ++ apply IH. simpl. lia.
          -- destruct (d =? LF)%N eqn:Hd.
             ++ apply N.eqb_eq in Hd. subst d.
                apply Hcrlf. apply IH. simpl in Hlen. lia.
             ++ apply Hbreak; try reflexivity.
                ** intros _ r Hr. inversion Hr; subst.
                   now rewrite N.eqb_refl in Hd.
                ** simpl. change (CR =? CR)%N with true. simpl.
                   now rewrite Hd.
                ** simpl. change (CR =? CR)%N with true. simpl.
                   now rewrite Hd.
                ** apply IH. lia.
        * apply Hbreak; trivial.
          -- intros ->. now rewrite N.eqb_refl in Hcr.
          -- simpl. now rewrite Hcr, Hc.
          -- simpl. now rewrite Hcr, Hc.
          -- apply IH. lia.
      + apply Hchar; [exact Hc | apply IH; lia]. }
  apply (H (length s)). lia.
Qed.

Lemma normalize_breaks_CRLF (rest : jsstring) :
  normalize_breaks (CR :: LF :: rest) = LF :: normalize_breaks rest.
Proof. reflexivity. Qed.

Lemma normalize_breaks_char (c : codeunit) (rest : jsstring) :
  isLineBreak c = false ->
  normalize_breaks (c :: rest) = c :: normalize_breaks rest.
Proof.
  no_collaborators.
  intros Hc. simpl.
  assert (Hcr : (c =? CR)%N = false).
  { unfold isLineBreak in Hc. rewrite !orb_false_iff in Hc. tauto. }
  now rewrite Hcr, Hc.
Qed.

Lemma join_empty_line (sep : jsstring) (lines : list jsstring) :
  lines <> [] -> join sep ([] :: lines) = sep ++ join sep lines.
Proof. destruct lines; [congruence | reflexivity]. Qed.

Lemma join_first_char (sep : jsstring) (c : codeunit) (seg : jsstring)
    (segs : list jsstring) :
  join sep ((c :: seg) :: segs) = c :: join sep (seg :: segs).
Proof. destruct segs; reflexivity. Qed.

(** Joining the lines with a line feed replaces every boundary by one. *)
Lemma join_split_NEWLINE (s : jsstring) :
  join [LF] (split_NEWLINE s) = normalize_breaks s.
Proof.
  induction s as [| rest IH | c rest Hc _ Hsplit Hnorm IH | c rest Hc IH]
    using split_NEWLINE_cases.
  - reflexivity.
  - rewrite split_NEWLINE_CRLF, normalize_breaks_CRLF.
    rewrite join_empty_line by apply split_NEWLINE_nonempty.
    now rewrite IH.
  - rewrite Hsplit, Hnorm.
    rewrite join_empty_line by apply split_NEWLINE_nonempty.
    now rewrite IH.
  - destruct (split_NEWLINE_char c rest Hc) as (seg & segs & Hrest & Hall).
    rewrite Hall, join_first_char, <- Hrest, IH.
    now rewrite normalize_breaks_char.
Qed.

Lemma split_NEWLINE_lines (s : jsstring) :
  Forall (fun line => NEWLINE_test line = false) (split_NEWLINE s).
Proof.
  induction s as [| rest IH | c rest Hc _ Hsplit _ IH | c rest Hc IH]
    using split_NEWLINE_cases.
  - repeat constructor.
  - rewrite split_NEWLINE_CRLF. now constructor.
  - rewrite Hsplit. now constructor.
  - destruct (split_NEWLINE_char c rest Hc) as (seg & segs & Hrest & Hall).
    rewrite Hall. rewrite Hrest in IH.
    inversion IH as [|? ? Hseg Hsegs]; subst.
    constructor; [|assumption].
    unfold NEWLINE_test in *. simpl. now rewrite Hc, Hseg.
Qed.

Lemma split_NEWLINE_two_lines (s : jsstring) :
  NEWLINE_test s = true -> 2 <= length (split_NEWLINE s).
Proof.
  induction s as [| rest IH | c rest Hc _ Hsplit _ IH | c rest Hc IH]
    using split_NEWLINE_cases; intros Htest.
  - discriminate.
  - rewrite split_NEWLINE_CRLF. simpl.
    pose proof (split_NEWLINE_nonempty rest).
    destruct (split_NEWLINE rest); [congruence | simpl; lia].
  - rewrite Hsplit. simpl.
    pose proof (split_NEWLINE_nonempty rest).
    destruct (split_NEWLINE rest); [congruence | simpl; lia].
  - destruct (split_NEWLINE_char c rest Hc) as (seg & segs & Hrest & Hall).
    rewrite Hall. rewrite Hrest in IH. simpl in *. apply IH.
    unfold NEWLINE_test in *. simpl in Htest. now rewrite Hc in Htest.
Qed.

Lemma without_breaks_normalize (s : jsstring) :
  without_breaks (normalize_breaks s) = without_breaks s.
Proof.
  induction s as [| rest IH | c rest Hc _ _ Hnorm IH | c rest Hc IH]
    using split_NEWLINE_cases.
  - reflexivity.
  - rewrite normalize_breaks_CRLF. simpl. exact IH.
  - rewrite Hnorm. unfold without_breaks in *. simpl. now rewrite Hc.
  - rewrite normalize_breaks_char by assumption.
    unfold without_breaks in *. simpl. now rewrite Hc, IH.
Qed.

Lemma normalize_breaks_only_LF (s : jsstring) :
  only_LF_breaks s = true -> normalize_breaks s = s.
Proof.
  induction s as [| rest IH | c rest Hc _ _ Hnorm IH | c rest Hc IH]
    using split_NEWLINE_cases; intros Honly.
  - reflexivity.
  - discriminate.
  - rewrite Hnorm. simpl in Honly. apply andb_true_iff in Honly.
    destruct Honly as [Hhead Hrest]. rewrite (IH Hrest). f_equal.
    unfold isLineBreak in Hc. apply negb_true_iff in Hhead.
    rewrite !orb_false_iff in Hhead. destruct Hhead as [[H1 H2] H3].
    rewrite H1, H2, H3 in Hc. rewrite !orb_false_r in Hc.
    apply N.eqb_eq in Hc. now symmetry.
  - rewrite normalize_breaks_char by assumption.
    simpl in Honly. apply andb_true_iff in Honly. now rewrite IH.
Qed.

(** ** The renderer *)

Lemma mapM_kleur_call (k : kleur_style) (lines : list jsstring)
    (enabled : bool) :
  mapM (kleur_call kleur_apply k) lines enabled
  = (Ok (map (kleur_apply k enabled) lines), enabled).
Proof.
  induction lines as [|l rest IH]; [reflexivity|].
  simpl. unfold bind at 1. unfold kleur_call at 1.
  unfold bind at 1. simpl. unfold bind at 1. now rewrite IH.
Qed.

Lemma render_all_app (enabled : bool) (fs gs : list fragment) :
  render_all enabled (fs ++ gs)
  = render_all enabled fs ++ render_all enabled gs.
Proof. unfold render_all. now rewrite map_app, concat_app. Qed.

Lemma strip_all_app (fs gs : list fragment) :
  strip_all (fs ++ gs) = strip_all fs ++ strip_all gs.
Proof. unfold strip_all. now rewrite map_app, concat_app. Qed.

Lemma styled_lines_cons (k : kleur_style) (l l' : jsstring)
    (rest : list jsstring) :
  styled_lines k (l :: l' :: rest)
  = Styled k l :: Plain [LF] :: styled_lines k (l' :: rest).
Proof. reflexivity. Qed.

Lemma join_cons (sep l l' : jsstring) (rest : list jsstring) :
  join sep (l :: l' :: rest) = l ++ sep ++ join sep (l' :: rest).
Proof. reflexivity. Qed.

Lemma render_styled_lines (k : kleur_style) (enabled : bool)
    (lines : list jsstring) :
  render_all enabled (styled_lines k lines)
  = join [LF] (map (kleur_apply k enabled) lines).
Proof.
  induction lines as [|l rest IH]; [reflexivity|].
  destruct rest as [|l' rest].
  - unfold render_all. simpl. apply app_nil_r.
  - rewrite styled_lines_cons. simpl map. rewrite join_cons.
    simpl map in IH. rewrite <- IH. reflexivity.
Qed.

Lemma strip_styled_lines (k : kleur_style) (lines : list jsstring) :
  strip_all (styled_lines k lines) = join [LF] lines.
Proof.
  induction lines as [|l rest IH]; [reflexivity|].
  destruct rest as [|l' rest].
  - unfold strip_all. simpl. apply app_nil_r.
  - rewrite styled_lines_cons, join_cons, <- IH. reflexivity.
Qed.

(** The text the loop builds is the text of the spans, and the loop leaves
    [kleur.enabled] as it found it. *)
Lemma highlightTokens_loop_fragments (defs : InternalTokenType -> kleur_style)
    (tokens : Generator Token) :
  forall (highlighted : jsstring) (enabled : bool),
    highlightTokens_loop defs tokens highlighted enabled
    = match fragments defs tokens with
      | Ok fs => (Ok (highlighted ++ render_all enabled fs), enabled)
      | Throw e => (Throw e, enabled)
      end.
Proof.
  induction tokens as [| token rest IH | e]; intros highlighted enabled.
  - simpl. unfold ret, render_all. simpl. now rewrite app_nil_r.
  - simpl. unfold token_fragments.
    destruct (lookup defs (type token)) as [colorize|].
    + unfold bind. rewrite mapM_kleur_call, IH.
      destruct (fragments defs rest) as [fs|e]; [|reflexivity].
      now rewrite render_all_app, render_styled_lines, app_assoc.
    + rewrite IH.
      destruct (fragments defs rest) as [fs|e]; [|reflexivity].
      change (render_all enabled ([Plain (value token)] ++ fs))
        with (value token ++ render_all enabled fs).
      now rewrite app_assoc.
  - reflexivity.
Qed.

Lemma highlightTokens_run (defs : InternalTokenType -> kleur_style)
    (text : jsstring) (enabled : bool) :
  highlightTokens defs text enabled
  = match fragments defs (tokenize text) with
    | Ok fs => (Ok (render_all enabled fs), enabled)
    | Throw e => (Throw e, enabled)
    end.
Proof.
  unfold highlightTokens. now rewrite highlightTokens_loop_fragments.
Qed.

Lemma fragments_yielded (defs : InternalTokenType -> kleur_style)
    (tokens : Generator Token) :
  completes tokens = true ->
  fragments defs tokens
  = Ok (flat_map (token_fragments defs) (yielded tokens)).
Proof.
  induction tokens as [| token rest IH | e]; simpl; intros Hc.
  - reflexivity.
  - now rewrite (IH Hc).
  - discriminate.
Qed.

Lemma strip_token_fragments (defs : InternalTokenType -> kleur_style)
    (token : Token) :
  strip_all (token_fragments defs token) = stripped_token defs token.
Proof.
  unfold token_fragments, stripped_token.
  destruct (lookup defs (type token)) as [colorize|].
  - now rewrite strip_styled_lines, join_split_NEWLINE.
  - unfold strip_all. simpl. apply app_nil_r.
Qed.

Lemma strip_all_flat_map (defs : InternalTokenType -> kleur_style)
    (tokens : list Token) :
  strip_all (flat_map (token_fragments defs) tokens)
  = concat (map (stripped_token defs) tokens).
Proof.
  induction tokens as [|token rest IH]; [reflexivity|].
  simpl. now rewrite strip_all_app, strip_token_fragments, IH.
Qed.

Lemma without_breaks_app (a b : jsstring) :
  without_breaks (a ++ b) = without_breaks a ++ without_breaks b.
Proof. apply filter_app. Qed.

Lemma without_breaks_stripped (defs : InternalTokenType -> kleur_style)
    (tokens : list Token) :
  without_breaks (concat (map (stripped_token defs) tokens))
  = without_breaks (concat (map value tokens)).
Proof.
  induction tokens as [|token rest IH]; [reflexivity|].
  simpl. rewrite !without_breaks_app, IH. f_equal.
  unfold stripped_token. destruct (lookup defs (type token)).
  - apply without_breaks_normalize.
  - reflexivity.
Qed.

Lemma stripped_only_LF (defs : InternalTokenType -> kleur_style)
    (tokens : list Token) :
  Forall (fun token => type token <> uncolored ->
                       only_LF_breaks (value token) = true) tokens ->
  concat (map (stripped_token defs) tokens) = concat (map value tokens).
Proof.
  induction 1 as [|token rest Htoken _ IH]; [reflexivity|].
  simpl. rewrite IH. f_equal.
  unfold stripped_token. destruct (type token) as [t|] eqn:Ht.
  - simpl. apply normalize_breaks_only_LF, Htoken. discriminate.
  - reflexivity.
Qed.

Lemma stripped_empty (defs : InternalTokenType -> kleur_style)
    (tokens : list Token) :
  concat (map value tokens) = [] ->
  concat (map (stripped_token defs) tokens) = [].
Proof.
  induction tokens as [|token rest IH]; [reflexivity|].
  simpl. intros H. apply app_eq_nil in H. destruct H as [Hv Hrest].
  rewrite (IH Hrest), app_nil_r. unfold stripped_token.
  rewrite Hv. now destruct (lookup defs (type token)).
Qed.

(** ** The entry point *)

Lemma try_finally_set_enabled {A} (body : M A) (saved enabled : bool) :
  try_finally body (set_enabled saved) enabled
  = (fst (body enabled), saved).
Proof. unfold try_finally. now destruct (body enabled). Qed.

Lemma highlight_empty (options : Options) (enabled : bool) :
  highlight [] options enabled = (Ok [], enabled).
Proof. reflexivity. Qed.

Lemma highlight_forceColor (code : jsstring) (before : bool) :
  code <> [] ->
  highlight code (mkOptions (Some true)) before
  = (fst (highlightTokens getDefs code true), before).
Proof.
  intros Hcode. unfold highlight.
  apply str_eqb_neq in Hcode. rewrite Hcode. cbn [truthy forceColor].
  unfold bind, get_enabled. cbv beta iota.
  change (set_enabled true before) with (Ok tt, true). cbv beta iota.
  rewrite try_finally_set_enabled. cbn [fst snd].
  now destruct (fst (highlightTokens getDefs code true)).
Qed.

(** C2.  With [forceColor], [kleur.enabled] is after the call what it was
    before; the rendering runs with the flag set, and what it returns or
    throws is what the call returns or throws. *)
Theorem C2_forceColor_restores_flag (code : jsstring) (before : bool) :
  snd (highlight code (mkOptions (Some true)) before) = before
  /\ (code <> [] ->
      highlight code (mkOptions (Some true)) before
      = (fst (highlightTokens getDefs code true), before))
  /\ (code <> [] ->
      forall e, fst (highlightTokens getDefs code true) = Throw e ->
      highlight code (mkOptions (Some true)) before = (Throw e, before))
  /\ (code <> [] ->
      forall result, fst (highlightTokens getDefs code true) = Ok result ->
      highlight code (mkOptions (Some true)) before = (Ok result, before)).
Proof.
  repeat split.
  - destruct code as [|c code]; [reflexivity|].
    now rewrite highlight_forceColor by discriminate.
  - apply highlight_forceColor.
  - intros Hcode e He. now rewrite highlight_forceColor, He.
  - intros Hcode result Hr. now rewrite highlight_forceColor, Hr.
Qed.

(** C9.  The empty text is returned as it is, whatever the options and the
    flag; and any text is returned as it is, the flag left unset, when
    [kleur.enabled] is unset and [forceColor] is absent or false.  Neither
    result depends on the tokenizer. *)
Theorem C9_unchanged_input :
  (forall options enabled, highlight [] options enabled = (Ok [], enabled))
  /\ (forall T options,
        forceColor options = None \/ forceColor options = Some false ->
        highlight T options false = (Ok T, false)).
Proof.
  split.
  - apply highlight_empty.
  - intros T options Hforce. unfold highlight.
    destruct (str_eqb T []); [reflexivity|].
    now destruct Hforce as [-> | ->].
Qed.

(** C10.  With [forceColor], what the call returns or throws does not
    depend on the value of [kleur.enabled] before the call. *)
Theorem C10_forceColor_ignores_flag (text : jsstring) (e1 e2 : bool) :
  fst (highlight text (mkOptions (Some true)) e1)
  = fst (highlight text (mkOptions (Some true)) e2).
Proof.
  destruct text as [|c text]; [reflexivity|].
  now rewrite !highlight_forceColor by discriminate.
Qed.

(** C1, as the code has it.  Let the tokens of [T] spell [T], with the
    template delimiters in place and no empty [IdentifierName].  With
    [forceColor] the call returns the text of a sequence of spans and
    restores the flag.  Stripping the styles from the spans leaves the
    texts of the normalized tokens, with every line-break boundary inside
    a styled token replaced by one line feed: the characters that are not
    line breaks are those of [T], in the same order, and the stripped text
    is [T] itself when no styled token holds a carriage return, a line
    separator or a paragraph separator. *)
Theorem C1_strip_up_to_line_breaks (T : jsstring) (before : bool) :
  Forall template_shape (jsTokens T) ->
  Forall identifier_nonempty (jsTokens T) ->
  concat (map raw_value (jsTokens T)) = T ->
  exists fs,
    highlight T (mkOptions (Some true)) before
    = (Ok (render_all true fs), before)
    /\ (T <> [] -> fragments getDefs (tokenize T) = Ok fs)
    /\ strip_all fs
       = concat (map (stripped_token getDefs) (yielded (tokenize T)))
    /\ without_breaks (strip_all fs) = without_breaks T
    /\ (Forall (fun token => type token <> uncolored ->
                             only_LF_breaks (value token) = true)
          (yielded (tokenize T)) ->
        strip_all fs = T).
Proof.
  intros Hshape Hne Htext.
  destruct (tokenize_tokens_lossless (jsTokens T) Hshape Hne) as [Hc Hy].
  rewrite Htext in Hy. fold (tokenize T) in Hc, Hy.
  assert (Hstripped :
    without_breaks
      (concat (map (stripped_token getDefs) (yielded (tokenize T))))
    = without_breaks T).
  { now rewrite without_breaks_stripped, Hy. }
  assert (Hexact :
    Forall (fun token => type token <> uncolored ->
                         only_LF_breaks (value token) = true)
      (yielded (tokenize T)) ->
    concat (map (stripped_token getDefs) (yielded (tokenize T))) = T).
  { intros Hclean. now rewrite stripped_only_LF, Hy. }
  destruct T as [|c T].
  - exists []. split; [|split; [|split; [|split]]].
    + reflexivity.
    + congruence.
    + symmetry. now apply stripped_empty.
    + reflexivity.
    + intros _. reflexivity.
  - exists (flat_map (token_fragments getDefs) (yielded (tokenize (c :: T)))).
    pose proof (fragments_yielded getDefs (tokenize (c :: T)) Hc) as Hfs.
    rewrite strip_all_flat_map. split; [|split; [|split; [|split]]].
    + rewrite highlight_forceColor by discriminate.
      now rewrite highlightTokens_run, Hfs.
    + intros _. exact Hfs.
    + reflexivity.
    + exact Hstripped.
    + exact Hexact.
Qed.

(** ** More on the classifier *)

Lemma getTokenType_Throw (token : JSToken) :
  getTokenType token = Throw TypeError <-> classifier_fails token.
Proof.
  unfold classifier_fails. split.
  - destruct (JSTokenType_eq_dec (raw_type token) IdentifierName)
      as [Hid | Hid].
    + rewrite (getTokenType_identifier token Hid).
      destruct (keywordLike (raw_value token)) eqn:Hk; [discriminate|].
      destruct (raw_value token) as [|c v] eqn:Hv.
      * intros _. auto.
      * destruct (negb (str_eqb [c] (toLowerCase [c]))); discriminate.
    + rewrite (getTokenType_not_identifier token Hid). discriminate.
  - intros (Hid & Hv & Hk).
    rewrite (getTokenType_identifier token Hid), Hv, Hk. reflexivity.
Qed.

(** X1.  An [Invalid] token is typed [punctuator] when its text is [@] and
    [invalid] otherwise; the exception for [@] is not made for a
    [JSXInvalid] token. *)
Theorem invalid_sigil (token : JSToken) :
  (raw_type token = Invalid -> raw_value token = js "@" ->
   getTokenType token = Ok (Internal punctuator))
  /\ (raw_type token = Invalid -> raw_value token <> js "@" ->
      getTokenType token = Ok (Internal invalid))
  /\ (raw_type token = JSXInvalid ->
      getTokenType token = Ok (Internal invalid)).
Proof.
  split; [|split].
  - intros Hty Hv. rewrite getTokenType_not_identifier by congruence.
    unfold getTokenType_rest, type_is. rewrite Hty, Hv. reflexivity.
  - intros Hty Hv. rewrite getTokenType_not_identifier by congruence.
    apply str_eqb_neq in Hv.
    unfold getTokenType_rest, type_is. rewrite Hty, Hv. reflexivity.
  - intros Hty. rewrite getTokenType_not_identifier by congruence.
    unfold getTokenType_rest, type_is. rewrite Hty. reflexivity.
Qed.

(** X2.  The types [keyword] and [capitalized] are given to
    [IdentifierName] tokens only, and an [IdentifierName] token is given
    no type but [keyword], [capitalized] and [uncolored]. *)
Theorem identifier_types (token : JSToken) (ty : TokenType) :
  getTokenType token = Ok ty ->
  (ty = Internal keyword \/ ty = Internal capitalized ->
   raw_type token = IdentifierName)
  /\ (raw_type token = IdentifierName ->
      ty = Internal keyword \/ ty = Internal capitalized \/ ty = uncolored).
Proof.
  intros Hok. split.
  - intros Hty.
    destruct (JSTokenType_eq_dec (raw_type token) IdentifierName)
      as [Hid | Hid]; [exact Hid | exfalso].
    rewrite (getTokenType_not_identifier token Hid) in Hok.
    injection Hok as Hok. unfold getTokenType_rest in Hok.
    destruct (type_is token Punctuator && BRACKET_test (raw_value token)).
    { destruct Hty; congruence. }
    destruct (type_is token Invalid && str_eqb (raw_value token) (js "@")).
    { destruct Hty; congruence. }
    destruct (raw_type token); destruct Hty; congruence.
  - intros Hid. rewrite (getTokenType_identifier token Hid) in Hok.
    destruct (keywordLike (raw_value token)).
    { injection Hok as <-. auto. }
    destruct (raw_value token) as [|c v]; [discriminate|].
    destruct (negb (str_eqb [c] (toLowerCase [c])));
      injection Hok as <-; auto.
Qed.

(** X3.  The classifier throws, a [TypeError], on one kind of token only:
    an [IdentifierName] whose text is empty, when the empty word is not a
    keyword for the two predicates. *)
Theorem getTokenType_throws_iff (token : JSToken) :
  getTokenType token = Throw TypeError
  <-> raw_type token = IdentifierName
      /\ raw_value token = []
      /\ isKeyword [] = false
      /\ isStrictReservedWord [] true = false.
Proof.
  rewrite getTokenType_Throw. unfold classifier_fails, keywordLike.
  change (has sometimesKeywords []) with false.
  rewrite orb_false_r, orb_false_iff. reflexivity.
Qed.

(** X4.  For a token that is not an [IdentifierName], a [Punctuator] or an
    [Invalid], the type depends on the kind of the token only, not on its
    text. *)
Theorem type_by_kind (t : JSTokenType) (v1 v2 : jsstring) :
  text_dependent t = false ->
  getTokenType (mkJSToken t v1) = getTokenType (mkJSToken t v2).
Proof. destruct t; try discriminate; reflexivity. Qed.

(** ** More on the normalizer *)

Lemma tokenize_tokens_cons (token : JSToken) (rest : list JSToken) :
  tokenize_tokens (token :: rest)
  = match token_yields token with
    | Ok ys => yield_all ys (tokenize_tokens rest)
    | Throw e => Raise e
    end.
Proof.
  unfold token_yields. simpl.
  destruct (raw_type token); try reflexivity;
    destruct (getTokenType token); reflexivity.
Qed.

Lemma yielded_yield_all {A} (ys : list A) (g : Generator A) :
  yielded (yield_all ys g) = ys ++ yielded g.
Proof. induction ys as [|y ys IH]; simpl; congruence. Qed.

Lemma completes_yield_all {A} (ys : list A) (g : Generator A) :
  completes (yield_all ys g) = completes g.
Proof. induction ys as [|y ys IH]; simpl; congruence. Qed.

Lemma token_yields_Throw (token : JSToken) :
  token_yields token = Throw TypeError <-> classifier_fails token.
Proof.
  rewrite <- getTokenType_Throw. unfold token_yields.
  destruct (JSTokenType_eq_dec (raw_type token) IdentifierName)
    as [Hid | Hid].
  - rewrite Hid. destruct (getTokenType token) as [ty|[]];
      split; congruence.
  - rewrite (getTokenType_not_identifier token Hid).
    destruct (raw_type token); split; discriminate.
Qed.

Lemma token_yields_other (token : JSToken) (ys : list Token) :
  other_kind token ->
  token_yields token = Ok ys ->
  exists ty, getTokenType token = Ok ty
             /\ ys = [mkToken ty (raw_value token)].
Proof.
  intros (Hh & Hm & Ht). unfold token_yields.
  destruct (raw_type token); try congruence;
    destruct (getTokenType token) as [ty|e]; try discriminate;
    intros H; injection H as <-; eauto.
Qed.

Lemma token_yields_count (token : JSToken) (ys : list Token) :
  token_yields token = Ok ys -> 1 <= length ys <= 3.
Proof.
  unfold token_yields.
  destruct (raw_type token);
    try (destruct (getTokenType token) as [ty|e]; [|discriminate]);
    intros H; injection H as <-; simpl; lia.
Qed.

Lemma completes_false (raw : list JSToken) :
  completes (tokenize_tokens raw) = false <-> Exists classifier_fails raw.
Proof.
  induction raw as [|token rest IH].
  - simpl. split; [discriminate | intros H; inversion H].
  - rewrite tokenize_tokens_cons, Exists_cons, <- IH, <- token_yields_Throw.
    destruct (token_yields token) as [ys|[]].
    + rewrite completes_yield_all.
      split; [auto | intros [H | H]; [discriminate | exact H]].
    + simpl. split; auto.
Qed.

(** X5.  The normalizer runs to its end exactly when no raw token is an
    [IdentifierName] with an empty text that is not a keyword; when there
    is one, the normalizer throws. *)
Theorem tokenize_completes_iff (raw : list JSToken) :
  (completes (tokenize_tokens raw) = true
   <-> Forall (fun token => ~ classifier_fails token) raw)
  /\ (completes (tokenize_tokens raw) = false
      <-> Exists classifier_fails raw).
Proof.
  split; [|apply completes_false].
  rewrite Forall_Exists_neg, <- completes_false.
  destruct (completes (tokenize_tokens raw)); split; congruence.
Qed.

Lemma tokenize_tokens_app (a b : list JSToken) :
  completes (tokenize_tokens a) = true ->
  yielded (tokenize_tokens (a ++ b))
  = yielded (tokenize_tokens a) ++ yielded (tokenize_tokens b)
  /\ completes (tokenize_tokens (a ++ b)) = completes (tokenize_tokens b).
Proof.
  induction a as [|token rest IH]; [intros _; split; reflexivity|].
  rewrite <- app_comm_cons, !tokenize_tokens_cons.
  destruct (token_yields token) as [ys|e]; [|discriminate].
  rewrite !completes_yield_all, !yielded_yield_all. intros Hc.
  destruct (IH Hc) as [Hy Hc']. now rewrite Hy, Hc', app_assoc.
Qed.

Lemma tokenize_tokens_stops (a b : list JSToken) :
  completes (tokenize_tokens a) = false ->
  tokenize_tokens (a ++ b) = tokenize_tokens a.
Proof.
  induction a as [|token rest IH]; [discriminate|].
  rewrite <- app_comm_cons, !tokenize_tokens_cons.
  destruct (token_yields token) as [ys|e]; [|reflexivity].
  rewrite completes_yield_all. intros Hc. now rewrite (IH Hc).
Qed.

(** X6.  The normalizer works token by token: when it runs to its end on
    [a], what it yields on [a ++ b] is what it yields on [a] followed by
    what it yields on [b]; when it throws on [a], the tokens of [b] are
    never looked at. *)
Theorem tokenize_tokens_concat (a b : list JSToken) :
  (completes (tokenize_tokens a) = true ->
   yielded (tokenize_tokens (a ++ b))
   = yielded (tokenize_tokens a) ++ yielded (tokenize_tokens b)
   /\ completes (tokenize_tokens (a ++ b)) = completes (tokenize_tokens b))
  /\ (completes (tokenize_tokens a) = false ->
      tokenize_tokens (a ++ b) = tokenize_tokens a).
Proof.
  split; [apply tokenize_tokens_app | apply tokenize_tokens_stops].
Qed.

Lemma tokenize_one_to_one (raw : list JSToken) :
  Forall other_kind raw ->
  completes (tokenize_tokens raw) = true ->
  map value (yielded (tokenize_tokens raw)) = map raw_value raw.
Proof.
  induction 1 as [|token rest Hother _ IH]; [reflexivity|].
  rewrite tokenize_tokens_cons.
  destruct (token_yields token) as [ys|e] eqn:Hys; [|discriminate].
  destruct (token_yields_other token ys Hother Hys) as (ty & _ & ->).
  simpl. intros Hc. now rewrite (IH Hc).
Qed.

(** X7.  When no raw token is a template head, middle or tail and the
    normalizer runs to its end, it yields one token for each raw token,
    in order and with the same text. *)
Theorem tokenize_without_templates (raw : list JSToken) :
  Forall other_kind raw ->
  completes (tokenize_tokens raw) = true ->
  map value (yielded (tokenize_tokens raw)) = map raw_value raw
  /\ length (yielded (tokenize_tokens raw)) = length raw.
Proof.
  intros Hother Hc.
  pose proof (tokenize_one_to_one raw Hother Hc) as Hmap.
  split; [exact Hmap|].
  apply (f_equal (@length jsstring)) in Hmap.
  now rewrite !length_map in Hmap.
Qed.

(** X8.  When the normalizer runs to its end, it yields at least one and at
    most three tokens for each raw token. *)
Theorem tokenize_count (raw : list JSToken) :
  completes (tokenize_tokens raw) = true ->
  length raw <= length (yielded (tokenize_tokens raw)) <= 3 * length raw.
Proof.
  induction raw as [|token rest IH]; [simpl; lia|].
  rewrite tokenize_tokens_cons.
  destruct (token_yields token) as [ys|e] eqn:Hys; [|discriminate].
  rewrite completes_yield_all, yielded_yield_all, length_app.
  intros Hc. specialize (IH Hc).
  pose proof (token_yields_count token ys Hys). simpl length. lia.
Qed.

(** ** More on splitting *)

Lemma normalize_breaks_LF_only (s : jsstring) :
  only_LF_breaks (normalize_breaks s) = true.
Proof.
  no_collaborators.
  induction s as [| rest IH | c rest Hc _ _ Hnorm IH | c rest Hc IH]
    using split_NEWLINE_cases.
  - reflexivity.
  - rewrite normalize_breaks_CRLF. simpl. exact IH.
  - rewrite Hnorm. simpl. exact IH.
  - rewrite normalize_breaks_char by assumption. simpl. rewrite IH.
    unfold isLineBreak in Hc. rewrite !orb_false_iff in Hc.
    destruct Hc as [[[_ H1] H2] H3]. now rewrite H1, H2, H3.
Qed.

Lemma split_NEWLINE_one_line (s : jsstring) :
  NEWLINE_test s = false -> split_NEWLINE s = [s].
Proof.
  no_collaborators.
  induction s as [|c rest IH]; [reflexivity|].
  unfold NEWLINE_test. simpl existsb. intros H.
  apply orb_false_iff in H. destruct H as [Hc Hrest].
  destruct (split_NEWLINE_char c rest Hc) as (seg & segs & Hsplit & Hall).
  rewrite Hall. rewrite (IH Hrest) in Hsplit. now injection Hsplit as <- <-.
Qed.

Lemma split_NEWLINE_boundary (b c : jsstring) :
  is_boundary b ->
  (b = [CR] -> forall r, c <> LF :: r) ->
  split_NEWLINE (b ++ c) = [] :: split_NEWLINE c.
Proof.
  no_collaborators.
  intros [-> | [-> | [-> | [-> | ->]]]] Hcr; try reflexivity.
  destruct c as [|d c]; [reflexivity|].
  simpl. destruct (d =? LF)%N eqn:Hd; [|reflexivity].
  apply N.eqb_eq in Hd. subst d. now elim (Hcr eq_refl c).
Qed.

Lemma split_NEWLINE_first_line (a b c : jsstring) :
  NEWLINE_test a = false ->
  is_boundary b ->
  (b = [CR] -> forall r, c <> LF :: r) ->
  split_NEWLINE (a ++ b ++ c) = a :: split_NEWLINE c.
Proof.
  no_collaborators.
  intros Ha Hb Hcr. induction a as [|x a IH].
  - change ([] ++ b ++ c) with (b ++ c). now apply split_NEWLINE_boundary.
  - unfold NEWLINE_test in Ha. simpl existsb in Ha.
    apply orb_false_iff in Ha. destruct Ha as [Hx Ha].
    rewrite <- app_comm_cons.
    destruct (split_NEWLINE_char x (a ++ b ++ c) Hx)
      as (seg & segs & Hsplit & Hall).
    rewrite Hall. rewrite (IH Ha) in Hsplit.
    now injection Hsplit as <- <-.
Qed.

(** X9.  Splitting a text on [NEWLINE] and joining the lines with a line
    feed gives the text back exactly when the text holds no carriage
    return, line separator or paragraph separator. *)
Theorem join_split_identity_iff (s : jsstring) :
  join [LF] (split_NEWLINE s) = s <-> only_LF_breaks s = true.
Proof.
  no_collaborators.
  rewrite join_split_NEWLINE. split.
  - intros H. rewrite <- H. apply normalize_breaks_LF_only.
  - apply normalize_breaks_only_LF.
Qed.

(** X10.  Splitting and joining a second time changes nothing: after one
    pass the line breaks of a text are line feeds only. *)
Theorem join_split_idempotent (s : jsstring) :
  join [LF] (split_NEWLINE (join [LF] (split_NEWLINE s)))
  = join [LF] (split_NEWLINE s)
  /\ only_LF_breaks (join [LF] (split_NEWLINE s)) = true.
Proof.
  no_collaborators.
  rewrite !join_split_NEWLINE. split.
  - apply normalize_breaks_only_LF, normalize_breaks_LF_only.
  - apply normalize_breaks_LF_only.
Qed.

(** X11.  A text without a line break is one line; and the first line of a
    text is what comes before its first boundary, the rest of the text
    being split in its turn (a carriage return is a boundary of its own
    only when no line feed follows it). *)
Theorem split_NEWLINE_unfold (a b c : jsstring) :
  NEWLINE_test a = false ->
  split_NEWLINE a = [a]
  /\ (is_boundary b ->
      (b = [CR] -> forall r, c <> LF :: r) ->
      split_NEWLINE (a ++ b ++ c) = a :: split_NEWLINE c).
Proof.
  no_collaborators.
  intros Ha. split.
  - now apply split_NEWLINE_one_line.
  - now apply split_NEWLINE_first_line.
Qed.

(** ** More on the renderer *)

Lemma render_token_fragments (defs : InternalTokenType -> kleur_style)
    (enabled : bool) (token : Token) :
  render_all enabled (token_fragments defs token)
  = render_token defs enabled token.
Proof.
  unfold token_fragments, render_token.
  destruct (lookup defs (type token)) as [colorize|].
  - apply render_styled_lines.
  - unfold render_all. simpl. apply app_nil_r.
Qed.

Lemma render_all_flat_map (defs : InternalTokenType -> kleur_style)
    (enabled : bool) (tokens : list Token) :
  render_all enabled (flat_map (token_fragments defs) tokens)
  = concat (map (render_token defs enabled) tokens).
Proof.
  induction tokens as [|token rest IH]; [reflexivity|].
  simpl. now rewrite render_all_app, render_token_fragments, IH.
Qed.

Lemma fragments_Throw (defs : InternalTokenType -> kleur_style)
    (tokens : Generator Token) :
  completes tokens = false -> exists e, fragments defs tokens = Throw e.
Proof.
  induction tokens as [| token rest IH | e]; simpl; intros Hc.
  - discriminate.
  - destruct (IH Hc) as [e ->]. eauto.
  - eauto.
Qed.

Lemma highlightTokens_loop_outcome (defs : InternalTokenType -> kleur_style)
    (tokens : Generator Token) (highlighted : jsstring) (enabled : bool) :
  highlightTokens_loop defs tokens highlighted enabled
  = if completes tokens then
      (Ok (highlighted
           ++ concat (map (render_token defs enabled) (yielded tokens))),
       enabled)
    else (Throw TypeError, enabled).
Proof.
  rewrite highlightTokens_loop_fragments.
  destruct (completes tokens) eqn:Hc.
  - now rewrite (fragments_yielded defs tokens Hc), render_all_flat_map.
  - destruct (fragments_Throw defs tokens Hc) as [[] ->]. reflexivity.
Qed.

(** X12.  When the normalizer runs to its end, [highlightTokens] returns
    the renderings of the tokens, one after the other in the order they
    were yielded, and leaves [kleur.enabled] as it is; when the normalizer
    throws, [highlightTokens] throws and nothing of what was rendered so
    far is returned. *)
Theorem highlightTokens_outcome (defs : InternalTokenType -> kleur_style)
    (text : jsstring) (enabled : bool) :
  (completes (tokenize text) = true ->
   highlightTokens defs text enabled
   = (Ok (concat (map (render_token defs enabled)
                    (yielded (tokenize text)))),
      enabled))
  /\ (completes (tokenize text) = false ->
      highlightTokens defs text enabled = (Throw TypeError, enabled)).
Proof.
  unfold highlightTokens. rewrite highlightTokens_loop_outcome.
  split; intros ->; reflexivity.
Qed.

Lemma uncolored_yields (token : JSToken) (ys : list Token) :
  token_yields token = Ok ys ->
  Forall (fun y => type y = uncolored) ys ->
  ys = [mkToken uncolored (raw_value token)].
Proof.
  unfold token_yields.
  destruct (raw_type token);
    try (destruct (getTokenType token) as [ty|e]; [|discriminate]);
    intros H; injection H as <-; intros Hall;
    inversion Hall as [|? ? Hy Hrest]; subst; simpl in Hy;
    try discriminate; try (now subst ty);
    inversion Hrest as [|? ? Hy' _]; subst; simpl in Hy'; discriminate.
Qed.

Lemma uncolored_one_to_one (raw : list JSToken) :
  completes (tokenize_tokens raw) = true ->
  Forall (fun y => type y = uncolored) (yielded (tokenize_tokens raw)) ->
  yielded (tokenize_tokens raw)
  = map (fun token => mkToken uncolored (raw_value token)) raw.
Proof.
  induction raw as [|token rest IH]; [reflexivity|].
  rewrite tokenize_tokens_cons.
  destruct (token_yields token) as [ys|e] eqn:Hys; [|discriminate].
  rewrite completes_yield_all, yielded_yield_all. intros Hc Hall.
  apply Forall_app in Hall. destruct Hall as [Hys_all Hrest].
  rewrite (uncolored_yields token ys Hys Hys_all), (IH Hc Hrest).
  reflexivity.
Qed.

Lemma render_uncolored (defs : InternalTokenType -> kleur_style)
    (enabled : bool) (raw : list JSToken) :
  concat (map (render_token defs enabled)
            (map (fun token => mkToken uncolored (raw_value token)) raw))
  = concat (map raw_value raw).
Proof.
  induction raw as [|token rest IH]; [reflexivity|].
  simpl. now rewrite IH.
Qed.

(** ** More on the entry point *)

Lemma highlightTokens_flag (defs : InternalTokenType -> kleur_style)
    (text : jsstring) (enabled : bool) :
  highlightTokens defs text enabled
  = (fst (highlightTokens defs text enabled), enabled).
Proof.
  unfold highlightTokens. rewrite highlightTokens_loop_outcome.
  now destruct (completes (tokenize text)).
Qed.

Lemma highlight_cases (code : jsstring) (options : Options)
    (enabled : bool) :
  highlight code options enabled
  = if str_eqb code [] then (Ok code, enabled)
    else if truthy (forceColor options) || enabled then
      (fst (highlightTokens getDefs code true), enabled)
    else (Ok code, enabled).
Proof.
  destruct (str_eqb code []) eqn:Hcode.
  - unfold highlight. now rewrite Hcode.
  - apply str_eqb_neq in Hcode.
    destruct options as [[[|]|]]; simpl truthy; simpl orb.
    + now apply highlight_forceColor.
    + unfold highlight. apply str_eqb_neq in Hcode. rewrite Hcode.
      simpl. unfold bind, get_enabled. destruct enabled; [|reflexivity].
      apply highlightTokens_flag.
    + unfold highlight. apply str_eqb_neq in Hcode. rewrite Hcode.
      simpl. unfold bind, get_enabled. destruct enabled; [|reflexivity].
      apply highlightTokens_flag.
Qed.

(** X15.  Whatever the text, the options and the flag, [kleur.enabled] is
    after a call of [highlight] what it was before, also when the call
    throws. *)
Theorem highlight_keeps_flag (code : jsstring) (options : Options)
    (enabled : bool) :
  snd (highlight code options enabled) = enabled.
Proof.
  rewrite highlight_cases.
  destruct (str_eqb code []); [reflexivity|].
  now destruct (truthy (forceColor options) || enabled).
Qed.

(** X16.  When [kleur.enabled] is set, [forceColor] makes no difference:
    the call returns or throws what it does with [forceColor]. *)
Theorem highlight_enabled_as_forced (code : jsstring) (options : Options) :
  highlight code options true
  = highlight code (mkOptions (Some true)) true.
Proof.
  rewrite !highlight_cases. simpl truthy. now rewrite orb_true_r.
Qed.

(** X17.  A call of [highlight] throws, a [TypeError], exactly when the
    text is not empty, colours are forced or enabled, and the tokenizer
    hands out an [IdentifierName] with an empty text that is not a
    keyword; in every other case the call returns a text. *)
Theorem highlight_throws_iff (code : jsstring) (options : Options)
    (enabled : bool) :
  (fst (highlight code options enabled) = Throw TypeError
   <-> code <> []
       /\ (forceColor options = Some true \/ enabled = true)
       /\ Exists classifier_fails (jsTokens code))
  /\ (fst (highlight code options enabled) <> Throw TypeError ->
      exists result, highlight code options enabled = (Ok result, enabled)).
Proof.
  rewrite highlight_cases. unfold highlightTokens.
  rewrite highlightTokens_loop_outcome.
  fold (tokenize code). rewrite <- (completes_false (jsTokens code)).
  fold (tokenize code).
  assert (Hforce : truthy (forceColor options) || enabled = true
                   <-> forceColor options = Some true \/ enabled = true).
  { rewrite orb_true_iff. destruct options as [[[|]|]]; simpl;
      intuition congruence. }
  destruct (str_eqb code []) eqn:Hcode.
  - apply str_eqb_spec in Hcode. split.
    + split; [discriminate | intros (H & _); contradiction].
    + eauto.
  - apply str_eqb_neq in Hcode.
    destruct (truthy (forceColor options) || enabled).
    + destruct (completes (tokenize code)); simpl.
      * split; [|eauto]. split; [discriminate|].
        intros (_ & _ & H). discriminate.
      * split; [|congruence]. split; [|reflexivity].
        intros _. split; [exact Hcode|]. split; [|reflexivity].
        now apply Hforce.
    + split; [|eauto]. simpl. split; [discriminate|].
      intros (_ & H & _). apply Hforce in H. discriminate.
Qed.

(** X18.  When every token the normalizer yields is typed [uncolored] (the
    text is made of white space, brackets, lower-case identifiers and the
    like), the call returns the text unchanged, colours enabled or not. *)
Theorem highlight_uncolored_text (code : jsstring) (options : Options)
    (enabled : bool) :
  completes (tokenize code) = true ->
  Forall (fun token => type token = uncolored) (yielded (tokenize code)) ->
  concat (map raw_value (jsTokens code)) = code ->
  highlight code options enabled = (Ok code, enabled).
Proof.
  intros Hc Hall Htext. rewrite highlight_cases.
  destruct (str_eqb code []); [reflexivity|].
  destruct (truthy (forceColor options) || enabled); [|reflexivity].
  unfold highlightTokens. rewrite highlightTokens_loop_outcome, Hc.
  unfold tokenize in *.
  rewrite (uncolored_one_to_one (jsTokens code) Hc Hall).
  now rewrite render_uncolored, Htext.
Qed.

(** ** The normalizer and the renderer, token by token *)

Lemma middle_parts (v : jsstring) :
  starts_with v (js "}") -> ends_with v (js "${") ->
  exists p, v = js "}" ++ p ++ js "${" /\ slice v 1 (Some (-2)%Z) = p.
Proof.
  intros [q Hq] [p Hp]. destruct p as [|x p].
  - rewrite Hp in Hq. discriminate Hq.
  - assert (Hx : x = 125%N) by (rewrite Hp in Hq; now inversion Hq).
    subst x. exists p. split; [exact Hp|].
    rewrite slice_without_first_trailing, Hp. simpl without_first.
    apply without_trailing_delimiter.
Qed.

Lemma token_yields_resegments (token : JSToken) (ys : list Token) :
  template_shape token ->
  token_yields token = Ok ys ->
  resegments token ys.
Proof.
  unfold template_shape, token_yields, resegments.
  destruct (raw_type token);
    try (intros _; destruct (getTokenType token) as [ty|e];
         [|discriminate]; intros H; injection H as <-; now exists ty).
  - intros [p Hp] H. injection H as <-. exists p. split; [exact Hp|].
    now rewrite slice_without_trailing, Hp, without_trailing_delimiter.
  - intros [Hs He] H. injection H as <-.
    destruct (middle_parts (raw_value token) Hs He) as (p & Hp & Hslice).
    exists p. split; [exact Hp|]. now rewrite Hslice.
  - intros [q Hq] H. injection H as <-. exists q. split; [exact Hq|].
    now rewrite slice_without_first, Hq.
Qed.

Lemma resegments_text (token : JSToken) (group : list Token) :
  resegments token group -> concat (map value group) = raw_value token.
Proof.
  unfold resegments.
  destruct (raw_type token);
    try (intros (ty & _ & ->); simpl; apply app_nil_r).
  - intros (p & -> & ->). simpl. rewrite ?app_nil_r. reflexivity.
  - intros (p & -> & ->). simpl. rewrite ?app_nil_r. reflexivity.
  - intros (p & -> & ->). simpl. rewrite ?app_nil_r. reflexivity.
Qed.

Lemma tokenize_groups (raw : list JSToken) :
  Forall template_shape raw ->
  completes (tokenize_tokens raw) = true ->
  exists groups,
    yielded (tokenize_tokens raw) = concat groups
    /\ Forall2 resegments raw groups.
Proof.
  induction 1 as [|token rest Hshape _ IH].
  - intros _. exists []. split; constructor.
  - rewrite tokenize_tokens_cons.
    destruct (token_yields token) as [ys|e] eqn:Hys; [|discriminate].
    rewrite completes_yield_all, yielded_yield_all. intros Hc.
    destruct (IH Hc) as (groups & Hy & Hall). exists (ys :: groups). split.
    + simpl. now rewrite Hy.
    + constructor; [now apply token_yields_resegments | exact Hall].
Qed.

Lemma groups_text (raw : list JSToken) (groups : list (list Token)) :
  Forall2 resegments raw groups ->
  concat (map value (concat groups)) = concat (map raw_value raw).
Proof.
  induction 1 as [|token group rest groups Hgroup _ IH]; [reflexivity|].
  simpl. now rewrite map_app, concat_app, IH, (resegments_text token group).
Qed.

Lemma completes_nonempty (raw : list JSToken) :
  Forall identifier_nonempty raw -> completes (tokenize_tokens raw) = true.
Proof.
  intros Hne. destruct (completes (tokenize_tokens raw)) eqn:Hc;
    [reflexivity | exfalso].
  apply completes_false, Exists_exists in Hc.
  destruct Hc as (token & Hin & Hid & Hv & _).
  rewrite Forall_forall in Hne. exact (Hne token Hin Hid Hv).
Qed.

Lemma split_NEWLINE_cut (s : jsstring) :
  cut_at_breaks s (split_NEWLINE s).
Proof.
  no_collaborators.
  induction s as [| rest IH | c rest Hc Hlone Hsplit _ IH | c rest Hc IH]
    using split_NEWLINE_cases.
  - now apply cut_last.
  - rewrite split_NEWLINE_CRLF.
    apply (cut_line [] [CR; LF] rest); trivial.
    + left. reflexivity.
    + discriminate.
  - rewrite Hsplit. apply (cut_line [] [c] rest); trivial.
    + unfold isLineBreak in Hc. rewrite !orb_true_iff, !N.eqb_eq in Hc.
      unfold is_boundary.
      destruct Hc as [[[-> | ->] | ->] | ->]; auto.
    + intros H. injection H as ->. now apply Hlone.
  - destruct (split_NEWLINE_char c rest Hc) as (seg & segs & Hrest & Hall).
    rewrite Hall. rewrite Hrest in IH.
    inversion IH as [line Hline | line b rest' lines Hline Hb Hl Hcut];
      subst.
    + apply cut_last. unfold NEWLINE_test in *. simpl. now rewrite Hc.
    + apply (cut_line (c :: seg) b rest'); trivial.
      unfold NEWLINE_test in *. simpl. now rewrite Hc.
Qed.

(** C3.  Take raw tokens in which the text of every [TemplateHead] ends
    with ["${"], the text of every [TemplateMiddle] starts with ["}"] and
    ends with ["${"], the text of every [TemplateTail] starts with ["}"],
    and whose texts spell the input.  The normalizer runs to its end on
    them when no [IdentifierName] has an empty text, as is the case of the
    tokens [js-tokens] hands out.  When it runs to its end, the texts of
    the tokens it yields spell the input, and these tokens are, raw token
    by raw token: for a template token, its string part and the
    punctuators ["${"] and ["}"] in the place of its delimiters; for any
    other token, one token with the same text. *)
Theorem C3_tokenize_lossless (raw : list JSToken) (text : jsstring) :
  Forall template_shape raw ->
  concat (map raw_value raw) = text ->
  (Forall identifier_nonempty raw ->
   completes (tokenize_tokens raw) = true)
  /\ (completes (tokenize_tokens raw) = true ->
      concat (map value (yielded (tokenize_tokens raw))) = text
      /\ exists groups,
           yielded (tokenize_tokens raw) = concat groups
           /\ Forall2 resegments raw groups).
Proof.
  intros Hshape Htext. split; [apply completes_nonempty|].
  intros Hc. destruct (tokenize_groups raw Hshape Hc) as (groups & Hy & Hall).
  split; [|eauto].
  now rewrite Hy, (groups_text raw groups Hall).
Qed.

(** C7.  A [TemplateHead] token with text [t] yields
    [(string, t without its last two characters)] and [(punctuator, "${")];
    a [TemplateMiddle] token yields [(punctuator, "}")], [(string, t without
    its first and its last two characters)] and [(punctuator, "${")]; a
    [TemplateTail] token yields [(punctuator, "}")] and [(string, t without
    its first character)].  A token of any other kind yields one token, of
    the type the classifier returns and with the text unchanged; the
    classifier returns a type for every token but an [IdentifierName] with
    an empty text, which [js-tokens] never hands out. *)
Theorem C7_tokenize_step (token : JSToken) (rest : list JSToken) :
  (raw_type token = TemplateHead ->
   tokenize_tokens (token :: rest) =
     Yield (mkToken string_ (without_trailing 2 (raw_value token)))
       (Yield (mkToken punctuator (js "${")) (tokenize_tokens rest)))
  /\ (raw_type token = TemplateMiddle ->
      tokenize_tokens (token :: rest) =
        Yield (mkToken punctuator (js "}"))
          (Yield (mkToken string_
                    (without_trailing 2 (without_first (raw_value token))))
             (Yield (mkToken punctuator (js "${"))
                (tokenize_tokens rest))))
  /\ (raw_type token = TemplateTail ->
      tokenize_tokens (token :: rest) =
        Yield (mkToken punctuator (js "}"))
          (Yield (mkToken string_ (without_first (raw_value token)))
             (tokenize_tokens rest)))
  /\ (other_kind token ->
      forall ty, getTokenType token = Ok ty ->
      tokenize_tokens (token :: rest) =
        Yield (mkToken ty (raw_value token)) (tokenize_tokens rest))
  /\ (other_kind token ->
      identifier_nonempty token ->
      exists ty,
        getTokenType token = Ok ty
        /\ tokenize_tokens (token :: rest) =
             Yield (mkToken ty (raw_value token)) (tokenize_tokens rest)).
Proof.
  split; [|split; [|split; [|split]]].
  - intros H. simpl. rewrite H. now rewrite slice_without_trailing.
  - intros H. simpl. rewrite H. now rewrite slice_without_first_trailing.
  - intros H. simpl. rewrite H. now rewrite slice_without_first.
  - intros H ty Hty. rewrite (tokenize_tokens_other token rest H).
    now rewrite Hty.
  - intros H Hne. destruct (getTokenType_returns token Hne) as [ty Hty].
    exists ty. split; [exact Hty|].
    rewrite (tokenize_tokens_other token rest H). now rewrite Hty.
Qed.

(** C8.  The text of a token that has a style and holds a line break is
    rendered as its lines, each passed through the style on its own, with
    one plain line feed between two of them, and that is what
    [highlightTokens] appends to the text built so far, before the
    renderings of the tokens that follow.  The lines are the text cut at
    its boundaries, a carriage return with its line feed being one
    boundary: they are two or more, and none of them holds a line
    break. *)
Theorem C8_styled_line_by_line (defs : InternalTokenType -> kleur_style)
    (token : Token) (rest : Generator Token) (highlighted : jsstring)
    (colorize : kleur_style) (enabled : bool) :
  lookup defs (type token) = Some colorize ->
  NEWLINE_test (value token) = true ->
  highlightTokens_loop defs (Yield token rest) highlighted enabled
  = (if completes rest then
       (Ok (highlighted
            ++ join [LF]
                 (map (kleur_apply colorize enabled)
                    (split_NEWLINE (value token)))
            ++ concat (map (render_token defs enabled) (yielded rest))),
        enabled)
     else (Throw TypeError, enabled))
  /\ cut_at_breaks (value token) (split_NEWLINE (value token))
  /\ 2 <= length (split_NEWLINE (value token))
  /\ Forall (fun line => NEWLINE_test line = false)
       (split_NEWLINE (value token)).
Proof.
  intros Hlookup Htest. split; [|split; [|split]].
  - rewrite highlightTokens_loop_outcome. simpl completes. simpl yielded.
    destruct (completes rest); [|reflexivity].
    simpl map. unfold render_token at 1. now rewrite Hlookup.
  - apply split_NEWLINE_cut.
  - now apply split_NEWLINE_two_lines.
  - apply split_NEWLINE_lines.
Qed.

(** X13.  The text of a token that has a style and holds no line break
    goes through the style once, whole, and what the style returns is
    appended to the text built so far, before the renderings of the tokens
    that follow. *)
Theorem styled_in_one_piece (defs : InternalTokenType -> kleur_style)
    (token : Token) (rest : Generator Token) (highlighted : jsstring)
    (colorize : kleur_style) (enabled : bool) :
  lookup defs (type token) = Some colorize ->
  NEWLINE_test (value token) = false ->
  highlightTokens_loop defs (Yield token rest) highlighted enabled
  = if completes rest then
      (Ok (highlighted
           ++ kleur_apply colorize enabled (value token)
           ++ concat (map (render_token defs enabled) (yielded rest))),
       enabled)
    else (Throw TypeError, enabled).
Proof.
  intros Hlookup Htest.
  rewrite highlightTokens_loop_outcome. simpl completes. simpl yielded.
  destruct (completes rest); [|reflexivity].
  simpl map. unfold render_token at 1.
  now rewrite Hlookup, (split_NEWLINE_one_line (value token) Htest).
Qed.

(** X14.  A [WhiteSpace], [LineTerminatorSequence], [JSXText],
    [PrivateIdentifier] or [HashbangComment] token is typed [uncolored]
    whatever its text, and its text is appended as it is to the text built
    so far, whatever the styles, before the renderings of the tokens that
    follow. *)
Theorem unstyled_kinds_pass_through (defs : InternalTokenType -> kleur_style)
    (token : JSToken) (rest : list JSToken) (highlighted : jsstring)
    (enabled : bool) :
  unstyled_kind (raw_type token) = true ->
  getTokenType token = Ok uncolored
  /\ highlightTokens_loop defs (tokenize_tokens (token :: rest))
       highlighted enabled
     = if completes (tokenize_tokens rest) then
         (Ok (highlighted
              ++ raw_value token
              ++ concat (map (render_token defs enabled)
                           (yielded (tokenize_tokens rest)))),
          enabled)
       else (Throw TypeError, enabled).
Proof.
  destruct token as [t v]. destruct t; try discriminate;
    intros _; (split; [reflexivity|]);
    rewrite highlightTokens_loop_outcome; reflexivity.
Qed.

End Highlight.

(** ** The properties on the sample collaborators *)

Local Abbreviation sample_getTokenType :=
  (getTokenType Sample.isKeyword Sample.isStrictReservedWord
     Sample.toLowerCase).
Local Abbreviation sample_tokenize_tokens :=
  (tokenize_tokens Sample.isKeyword Sample.isStrictReservedWord
     Sample.toLowerCase).
Local Abbreviation sample_tokenize :=
  (tokenize Sample.jsTokens Sample.isKeyword Sample.isStrictReservedWord
     Sample.toLowerCase).
Local Abbreviation sample_highlightTokens :=
  (highlightTokens Sample.jsTokens Sample.isKeyword
     Sample.isStrictReservedWord Sample.toLowerCase Sample.kleur_apply).
Local Abbreviation sample_highlight :=
  (highlight Sample.jsTokens Sample.isKeyword Sample.isStrictReservedWord
     Sample.toLowerCase Sample.kleur_apply).
Local Abbreviation forced := (mkOptions (Some true)).

(** The tokens of [const x = 1;]: a keyword, an identifier that gets no
    style, two punctuators and a number, the white space between them
    untouched. *)
Example tokenize_const_x :
  sample_tokenize Sample.const_x
  = Yield (mkToken keyword (js "const"))
      (Yield (mkToken uncolored (js " "))
         (Yield (mkToken uncolored (js "x"))
            (Yield (mkToken uncolored (js " "))
               (Yield (mkToken punctuator (js "="))
                  (Yield (mkToken uncolored (js " "))
                     (Yield (mkToken number (js "1"))
                        (Yield (mkToken punctuator (js ";")) Done))))))).
Proof. reflexivity. Qed.

(** An [Invalid] token [@] is typed [punctuator]. *)
Example decorator_sigil :
  sample_getTokenType (mkJSToken Invalid (js "@")) = Ok (Internal punctuator).
Proof. reflexivity. Qed.

(** A tokenizer that hands out an empty [IdentifierName] makes the
    rendering throw; the call throws the same exception, and the flag is
    restored. *)
Example forceColor_failure :
  highlight (fun _ => [mkJSToken IdentifierName []]) Sample.isKeyword
    Sample.isStrictReservedWord Sample.toLowerCase Sample.kleur_apply
    (js "x") forced false
  = (Throw TypeError, false).
Proof. reflexivity. Qed.

Lemma C1_witness :
  exists fs,
    sample_highlight Sample.comment_lf forced false
    = (Ok (render_all Sample.kleur_apply true fs), false)
    /\ strip_all fs = Sample.comment_lf.
Proof.
  assert (Hshape : Forall template_shape (Sample.jsTokens Sample.comment_lf)).
  { apply Forall_cons; [exact I | apply Forall_nil]. }
  assert (Hne : Forall identifier_nonempty
                  (Sample.jsTokens Sample.comment_lf)).
  { apply Forall_cons; [intros H; discriminate H | apply Forall_nil]. }
  destruct (C1_strip_up_to_line_breaks Sample.jsTokens Sample.isKeyword
              Sample.isStrictReservedWord Sample.toLowerCase
              Sample.kleur_apply Sample.comment_lf false Hshape Hne eq_refl)
    as (fs & Hrun & _ & _ & _ & Hexact).
  exists fs. split; [exact Hrun|].
  apply Hexact.
  apply Forall_cons; [intros _; reflexivity | apply Forall_nil].
Defined.

(** C1 fails on a comment that holds a carriage return and a line feed:
    the two characters come out as one line feed. *)
Lemma C1_crlf_counterexample :
  Forall template_shape (Sample.jsTokens Sample.comment_crlf)
  /\ Forall identifier_nonempty (Sample.jsTokens Sample.comment_crlf)
  /\ concat (map raw_value (Sample.jsTokens Sample.comment_crlf))
     = Sample.comment_crlf
  /\ sample_highlight Sample.comment_crlf forced false
     = (Ok (render_all Sample.kleur_apply true
              [Styled grey (js "/*a"); Plain [LF]; Styled grey (js "b*/")]),
        false)
  /\ fragments getDefs (sample_tokenize Sample.comment_crlf)
     = Ok [Styled grey (js "/*a"); Plain [LF]; Styled grey (js "b*/")]
  /\ strip_all [Styled grey (js "/*a"); Plain [LF]; Styled grey (js "b*/")]
     = js "/*a" ++ [LF] ++ js "b*/"
  /\ strip_all [Styled grey (js "/*a"); Plain [LF]; Styled grey (js "b*/")]
     <> Sample.comment_crlf
  /\ Sample.strip_codes false
       (render_all Sample.kleur_apply true
          [Styled grey (js "/*a"); Plain [LF]; Styled grey (js "b*/")])
     = js "/*a" ++ [LF] ++ js "b*/".
Proof.
  split; [|split; [|split; [|split; [|split; [|split; [|split]]]]]].
  - apply Forall_cons; [exact I | apply Forall_nil].
  - apply Forall_cons; [intros H; discriminate H | apply Forall_nil].
  - reflexivity.
  - reflexivity.
  - reflexivity.
  - reflexivity.
  - intros H. discriminate H.
  - reflexivity.
Qed.

Lemma C2_witness :
  sample_highlight Sample.const_x forced false
  = (fst (sample_highlightTokens getDefs Sample.const_x true), false).
Proof.
  apply (proj1 (proj2 (C2_forceColor_restores_flag Sample.jsTokens
                         Sample.isKeyword Sample.isStrictReservedWord
                         Sample.toLowerCase Sample.kleur_apply
                         Sample.const_x false))).
  intros H. discriminate H.
Defined.

Lemma C4_witness :
  sample_getTokenType (mkJSToken IdentifierName (js "async"))
  = Ok (Internal keyword)
  /\ sample_getTokenType (mkJSToken IdentifierName (js "target"))
     <> Ok (Internal keyword).
Proof.
  split.
  - exact (proj1 (proj2 (C4_keyword_iff Sample.isKeyword
                           Sample.isStrictReservedWord Sample.toLowerCase
                           (mkJSToken IdentifierName (js "async")) eq_refl))
             eq_refl).
  - exact (proj2 (proj2 (C4_keyword_iff Sample.isKeyword
                           Sample.isStrictReservedWord Sample.toLowerCase
                           (mkJSToken IdentifierName (js "target")) eq_refl))
             eq_refl eq_refl eq_refl).
Defined.

Lemma C5_witness :
  sample_getTokenType (mkJSToken IdentifierName (js "Foo"))
  = Ok (Internal capitalized)
  /\ sample_getTokenType (mkJSToken IdentifierName (js "foo")) = Ok uncolored.
Proof.
  split.
  - apply (C5_capitalized_or_uncolored Sample.isKeyword
             Sample.isStrictReservedWord Sample.toLowerCase
             (mkJSToken IdentifierName (js "Foo")) 70%N (js "oo")).
    + reflexivity.
    + reflexivity.
    + intros H. discriminate H.
    + intros H. discriminate H.
  - apply (C5_capitalized_or_uncolored Sample.isKeyword
             Sample.isStrictReservedWord Sample.toLowerCase
             (mkJSToken IdentifierName (js "foo")) 102%N (js "oo")).
    + reflexivity.
    + reflexivity.
    + intros H. discriminate H.
    + reflexivity.
Defined.

Lemma C6_witness :
  sample_getTokenType (mkJSToken Punctuator (js "{")) = Ok uncolored
  /\ sample_getTokenType (mkJSToken Punctuator (js "=>"))
     = Ok (Internal punctuator)
  /\ sample_getTokenType (mkJSToken JSXPunctuator (js "{"))
     = Ok (Internal punctuator).
Proof.
  split; [|split].
  - apply (proj1 (C6_brackets_uncolored Sample.isKeyword
                    Sample.isStrictReservedWord Sample.toLowerCase
                    (mkJSToken Punctuator (js "{")))).
    + reflexivity.
    + right; right; right; right; left. reflexivity.
  - apply (proj1 (proj2 (C6_brackets_uncolored Sample.isKeyword
                           Sample.isStrictReservedWord Sample.toLowerCase
                           (mkJSToken Punctuator (js "=>"))))).
    + reflexivity.
    + intros H.
      repeat (destruct H as [H | H]; [discriminate H|]). exact H.
  - apply (proj2 (proj2 (C6_brackets_uncolored Sample.isKeyword
                           Sample.isStrictReservedWord Sample.toLowerCase
                           (mkJSToken JSXPunctuator (js "{"))))).
    reflexivity.
Defined.

Lemma C9_witness :
  sample_highlight Sample.const_x no_options false
  = (Ok Sample.const_x, false).
Proof.
  exact (proj2 (C9_unchanged_input Sample.jsTokens Sample.isKeyword
                  Sample.isStrictReservedWord Sample.toLowerCase
                  Sample.kleur_apply)
           Sample.const_x no_options (or_introl eq_refl)).
Defined.

(** ** The further properties on the sample collaborators *)

Lemma invalid_sigil_witness :
  sample_getTokenType (mkJSToken Invalid (js "@"))
  = Ok (Internal punctuator)
  /\ sample_getTokenType (mkJSToken Invalid (js "#")) = Ok (Internal invalid)
  /\ sample_getTokenType (mkJSToken JSXInvalid (js "@"))
     = Ok (Internal invalid).
Proof.
  split; [|split].
  - apply (proj1 (invalid_sigil Sample.isKeyword
                    Sample.isStrictReservedWord Sample.toLowerCase
                    (mkJSToken Invalid (js "@")))); reflexivity.
  - apply (proj1 (proj2 (invalid_sigil Sample.isKeyword
                           Sample.isStrictReservedWord Sample.toLowerCase
                           (mkJSToken Invalid (js "#"))))).
    + reflexivity.
    + intros H. discriminate H.
  - apply (proj2 (proj2 (invalid_sigil Sample.isKeyword
                           Sample.isStrictReservedWord Sample.toLowerCase
                           (mkJSToken JSXInvalid (js "@"))))).
    reflexivity.
Defined.

Lemma identifier_types_witness :
  raw_type (mkJSToken IdentifierName (js "Foo")) = IdentifierName
  /\ (Internal capitalized = Internal keyword
      \/ Internal capitalized = Internal capitalized
      \/ Internal capitalized = uncolored).
Proof.
  destruct (identifier_types Sample.isKeyword Sample.isStrictReservedWord
              Sample.toLowerCase (mkJSToken IdentifierName (js "Foo"))
              (Internal capitalized) eq_refl) as [Honly Hid].
  split.
  - apply Honly. right. reflexivity.
  - apply Hid. reflexivity.
Defined.

Lemma getTokenType_throws_iff_witness :
  sample_getTokenType (mkJSToken IdentifierName []) = Throw TypeError.
Proof.
  apply (proj2 (getTokenType_throws_iff Sample.isKeyword
                  Sample.isStrictReservedWord Sample.toLowerCase
                  (mkJSToken IdentifierName []))).
  repeat split.
Defined.

Lemma type_by_kind_witness :
  sample_getTokenType (mkJSToken NumericLiteral (js "1"))
  = sample_getTokenType (mkJSToken NumericLiteral (js "0x2A")).
Proof.
  apply type_by_kind. reflexivity.
Defined.

Lemma tokenize_completes_iff_witness :
  completes (sample_tokenize_tokens (Sample.jsTokens Sample.const_x)) = true.
Proof.
  apply (proj1 (tokenize_completes_iff Sample.isKeyword
                  Sample.isStrictReservedWord Sample.toLowerCase
                  (Sample.jsTokens Sample.const_x))).
  repeat (apply Forall_cons; [intros (_ & H & _); discriminate H|]).
  apply Forall_nil.
Defined.

Lemma tokenize_tokens_concat_witness :
  yielded
    (sample_tokenize_tokens
       ([mkJSToken TemplateHead (js "`a${")]
        ++ [mkJSToken IdentifierName (js "b")]))
  = yielded (sample_tokenize_tokens [mkJSToken TemplateHead (js "`a${")])
    ++ yielded (sample_tokenize_tokens [mkJSToken IdentifierName (js "b")]).
Proof.
  apply (proj1 (tokenize_tokens_concat Sample.isKeyword
                  Sample.isStrictReservedWord Sample.toLowerCase
                  [mkJSToken TemplateHead (js "`a${")]
                  [mkJSToken IdentifierName (js "b")])).
  reflexivity.
Defined.

Lemma tokenize_without_templates_witness :
  map value (yielded (sample_tokenize_tokens (Sample.jsTokens Sample.const_x)))
  = map raw_value (Sample.jsTokens Sample.const_x)
  /\ length (yielded
               (sample_tokenize_tokens (Sample.jsTokens Sample.const_x)))
     = length (Sample.jsTokens Sample.const_x).
Proof.
  apply tokenize_without_templates.
  - repeat (apply Forall_cons;
            [split; [|split]; intros H; discriminate H|]).
    apply Forall_nil.
  - reflexivity.
Defined.

Lemma tokenize_count_witness :
  length (Sample.jsTokens Sample.template)
  <= length (yielded
               (sample_tokenize_tokens (Sample.jsTokens Sample.template)))
  <= 3 * length (Sample.jsTokens Sample.template).
Proof.
  apply tokenize_count. reflexivity.
Defined.

Lemma join_split_identity_iff_witness :
  join [LF] (split_NEWLINE Sample.comment_lf) = Sample.comment_lf.
Proof.
  apply (proj2 (join_split_identity_iff Sample.comment_lf)). reflexivity.
Defined.

Lemma split_NEWLINE_unfold_witness :
  split_NEWLINE (js "/* a") = [js "/* a"]
  /\ split_NEWLINE (js "/* a" ++ [CR] ++ js "b */")
     = js "/* a" :: split_NEWLINE (js "b */").
Proof.
  destruct (split_NEWLINE_unfold (js "/* a") [CR] (js "b */") eq_refl)
    as [Hone Hfirst].
  split; [exact Hone|].
  apply Hfirst.
  - right; right; left. reflexivity.
  - intros _ r H. discriminate H.
Defined.

Lemma highlightTokens_outcome_witness :
  sample_highlightTokens getDefs Sample.const_x true
  = (Ok (concat (map (render_token Sample.kleur_apply getDefs true)
                   (yielded (sample_tokenize Sample.const_x)))),
     true).
Proof.
  apply (proj1 (highlightTokens_outcome Sample.jsTokens Sample.isKeyword
                  Sample.isStrictReservedWord Sample.toLowerCase
                  Sample.kleur_apply getDefs Sample.const_x true)).
  reflexivity.
Defined.

Lemma highlight_throws_iff_witness :
  fst (highlight (fun _ => [mkJSToken IdentifierName []]) Sample.isKeyword
         Sample.isStrictReservedWord Sample.toLowerCase Sample.kleur_apply
         (js "x") forced false)
  = Throw TypeError
  /\ exists result,
       sample_highlight Sample.const_x forced false = (Ok result, false).
Proof.
  split.
  - apply (proj1 (highlight_throws_iff (fun _ => [mkJSToken IdentifierName []])
                    Sample.isKeyword Sample.isStrictReservedWord
                    Sample.toLowerCase Sample.kleur_apply
                    (js "x") forced false)).
    split; [intros H; discriminate H|].
    split; [left; reflexivity|].
    apply Exists_cons_hd. repeat split.
  - apply (proj2 (highlight_throws_iff Sample.jsTokens Sample.isKeyword
                    Sample.isStrictReservedWord Sample.toLowerCase
                    Sample.kleur_apply Sample.const_x forced false)).
    intros H. discriminate H.
Defined.

Lemma highlight_uncolored_text_witness :
  highlight
    (fun _ =>
       [mkJSToken IdentifierName (js "f"); mkJSToken WhiteSpace (js " ");
        mkJSToken Punctuator (js "("); mkJSToken IdentifierName (js "x");
        mkJSToken Punctuator (js ")")])
    Sample.isKeyword Sample.isStrictReservedWord Sample.toLowerCase
    Sample.kleur_apply (js "f (x)") no_options true
  = (Ok (js "f (x)"), true).
Proof.
  apply highlight_uncolored_text.
  - reflexivity.
  - repeat (apply Forall_cons; [reflexivity|]). apply Forall_nil.
  - reflexivity.
Defined.

(** ** The normalizer and the renderer on the sample collaborators *)

Lemma C3_witness :
  completes (sample_tokenize_tokens (Sample.jsTokens Sample.template)) = true
  /\ concat (map value
               (yielded
                  (sample_tokenize_tokens (Sample.jsTokens Sample.template))))
     = Sample.template
  /\ exists groups,
       yielded (sample_tokenize_tokens (Sample.jsTokens Sample.template))
       = concat groups
       /\ Forall2
            (resegments Sample.isKeyword Sample.isStrictReservedWord
               Sample.toLowerCase)
            (Sample.jsTokens Sample.template) groups.
Proof.
  assert (Hshape : Forall template_shape (Sample.jsTokens Sample.template)).
  { apply Forall_cons; [exists (js "`a"); reflexivity|].
    apply Forall_cons; [exact I|].
    apply Forall_cons; [exists (js "c`"); reflexivity | apply Forall_nil]. }
  assert (Hne : Forall identifier_nonempty
                  (Sample.jsTokens Sample.template)).
  { apply Forall_cons; [intros _ H; discriminate H|].
    apply Forall_cons; [intros _ H; discriminate H|].
    apply Forall_cons; [intros _ H; discriminate H | apply Forall_nil]. }
  destruct (C3_tokenize_lossless Sample.isKeyword
              Sample.isStrictReservedWord Sample.toLowerCase
              (Sample.jsTokens Sample.template) Sample.template
              Hshape eq_refl) as [Hruns Hlossless].
  split; [exact (Hruns Hne) | exact (Hlossless (Hruns Hne))].
Defined.

Lemma C7_witness :
  sample_tokenize_tokens
    [mkJSToken TemplateHead (js "`a${"); mkJSToken IdentifierName (js "b")]
  = Yield (mkToken string_ (js "`a"))
      (Yield (mkToken punctuator (js "${"))
         (sample_tokenize_tokens [mkJSToken IdentifierName (js "b")]))
  /\ exists ty,
       sample_getTokenType (mkJSToken IdentifierName (js "b")) = Ok ty
       /\ sample_tokenize_tokens [mkJSToken IdentifierName (js "b")]
          = Yield (mkToken ty (js "b")) Done.
Proof.
  split.
  - exact (proj1 (C7_tokenize_step Sample.isKeyword
                    Sample.isStrictReservedWord Sample.toLowerCase
                    (mkJSToken TemplateHead (js "`a${"))
                    [mkJSToken IdentifierName (js "b")]) eq_refl).
  - apply (proj2 (proj2 (proj2 (proj2
             (C7_tokenize_step Sample.isKeyword
                Sample.isStrictReservedWord Sample.toLowerCase
                (mkJSToken IdentifierName (js "b")) []))))).
    + split; [|split]; intros H; discriminate H.
    + intros _ H. discriminate H.
Defined.

Lemma C8_witness :
  highlightTokens_loop Sample.kleur_apply getDefs
    (Yield (mkToken comment Sample.comment_lf) Done) [] true
  = (Ok (Sample.open grey ++ js "/* a" ++ Sample.close grey ++ [LF]
         ++ Sample.open grey ++ js "b */" ++ Sample.close grey),
     true)
  /\ cut_at_breaks Sample.comment_lf [js "/* a"; js "b */"].
Proof.
  destruct (C8_styled_line_by_line Sample.kleur_apply getDefs
              (mkToken comment Sample.comment_lf) Done [] grey true
              eq_refl eq_refl) as (Hloop & Hcut & _).
  split; [rewrite Hloop; reflexivity | exact Hcut].
Defined.

Lemma styled_in_one_piece_witness :
  highlightTokens_loop Sample.kleur_apply getDefs
    (Yield (mkToken keyword (js "const")) Done) [] true
  = (Ok (Sample.open cyan ++ js "const" ++ Sample.close cyan), true).
Proof.
  rewrite (styled_in_one_piece Sample.kleur_apply getDefs
             (mkToken keyword (js "const")) Done [] cyan true
             eq_refl eq_refl).
  reflexivity.
Defined.

Lemma unstyled_kinds_pass_through_witness :
  sample_getTokenType (mkJSToken WhiteSpace (js " ")) = Ok uncolored
  /\ highlightTokens_loop Sample.kleur_apply getDefs
       (sample_tokenize_tokens
          [mkJSToken WhiteSpace (js " "); mkJSToken NumericLiteral (js "1")])
       (js "=") true
     = (Ok (js "= " ++ Sample.open magenta ++ js "1" ++ Sample.close magenta),
        true).
Proof.
  destruct (unstyled_kinds_pass_through Sample.isKeyword
              Sample.isStrictReservedWord Sample.toLowerCase
              Sample.kleur_apply getDefs (mkJSToken WhiteSpace (js " "))
              [mkJSToken NumericLiteral (js "1")] (js "=") true eq_refl)
    as [Hty Hloop].
  split; [exact Hty | rewrite Hloop; reflexivity].
Defined.
